(** * Devtools client of Textual: log shipping over a websocket

    A shallow embedding of [src/textual/devtools/client.py] and the
    properties of its connection, queue and task machinery, and of the
    box renderer of [src/textual/_box.py].

    Python values are modelled as follows.
    - [int] is [Z]; [str] is [string], the UTF-8 bytes of the text
      (in the box renderer, which takes strings apart, the list of its
      code points); [bytes] is [list byte].
    - An [asyncio.Queue] is its deque (a list, oldest item first), its
      [maxsize] and its count of unfinished tasks.
    - A method of [DevtoolsClient] is a function in the monad [M]: it
      threads the client object and ends by returning, by raising, or
      by staying suspended on an [await] that nothing completes.
    - The two coroutines started by [connect] are functions that run a
      task up to its next suspension point. *)

From Stdlib Require Import ZArith List String Ascii Bool Lia.
From Stdlib Require Import Strings.Byte.
From Stdlib Require Import DecimalString.
Import ListNotations.

Local Open Scope Z_scope.
Local Open Scope list_scope.

Set Implicit Arguments.

(* ================================================================== *)
(** ** [base64.b64encode] and its inverse (RFC 4648, standard alphabet) *)

Module Base64.

(** A group of six bits, most significant first. *)
Definition sextet : Type := (bool * bool * bool * bool * bool * bool)%type.

Definition sextet_index (s : sextet) : nat :=
  let '(a, b, c, d, e, f) := s in
  (32 * Nat.b2n a + 16 * Nat.b2n b + 8 * Nat.b2n c
   + 4 * Nat.b2n d + 2 * Nat.b2n e + Nat.b2n f)%nat.

Definition table_b2a : list byte :=
  list_byte_of_string
    "ABCDEFGHIJKLMNOPQRSTUVWXYZabcdefghijklmnopqrstuvwxyz0123456789+/".

Definition PAD : byte := "="%byte.

Definition b2a (s : sextet) : byte := nth (sextet_index s) table_b2a PAD.

Definition all_sextets : list sextet :=
  let bs := [false; true] in
  flat_map (fun a => flat_map (fun b => flat_map (fun c =>
  flat_map (fun d => flat_map (fun e => map (fun f => (a, b, c, d, e, f)) bs)
  bs) bs) bs) bs) bs.

(** The inverse table: the sextet a character of the alphabet stands
    for, [None] for any other byte. *)
Definition a2b (ch : byte) : option sextet :=
  find (fun s => Byte.eqb (b2a s) ch) all_sextets.

(** Three bytes are four sextets. *)
Definition encode3 (x y z : byte) : list byte :=
  let '(x0, (x1, (x2, (x3, (x4, (x5, (x6, x7))))))) := Byte.to_bits x in
  let '(y0, (y1, (y2, (y3, (y4, (y5, (y6, y7))))))) := Byte.to_bits y in
  let '(z0, (z1, (z2, (z3, (z4, (z5, (z6, z7))))))) := Byte.to_bits z in
  [ b2a (x7, x6, x5, x4, x3, x2); b2a (x1, x0, y7, y6, y5, y4);
    b2a (y3, y2, y1, y0, z7, z6); b2a (z5, z4, z3, z2, z1, z0) ].

(** Two trailing bytes: three sextets (two zero bits added) and one pad. *)
Definition encode2 (x y : byte) : list byte :=
  let '(x0, (x1, (x2, (x3, (x4, (x5, (x6, x7))))))) := Byte.to_bits x in
  let '(y0, (y1, (y2, (y3, (y4, (y5, (y6, y7))))))) := Byte.to_bits y in
  [ b2a (x7, x6, x5, x4, x3, x2); b2a (x1, x0, y7, y6, y5, y4);
    b2a (y3, y2, y1, y0, false, false); PAD ].

(** One trailing byte: two sextets (four zero bits added) and two pads. *)
Definition encode1 (x : byte) : list byte :=
  let '(x0, (x1, (x2, (x3, (x4, (x5, (x6, x7))))))) := Byte.to_bits x in
  [ b2a (x7, x6, x5, x4, x3, x2); b2a (x1, x0, false, false, false, false);
    PAD; PAD ].

Fixpoint b64encode (data : list byte) : list byte :=
  match data with
  | [] => []
  | [x] => encode1 x
  | [x; y] => encode2 x y
  | x :: y :: z :: rest => encode3 x y z ++ b64encode rest
  end.

Definition byte_of (b7 b6 b5 b4 b3 b2 b1 b0 : bool) : byte :=
  Byte.of_bits (b0, (b1, (b2, (b3, (b4, (b5, (b6, b7))))))).

Definition decode3 (p q r s : sextet) : list byte :=
  let '(p5, p4, p3, p2, p1, p0) := p in
  let '(q5, q4, q3, q2, q1, q0) := q in
  let '(r5, r4, r3, r2, r1, r0) := r in
  let '(s5, s4, s3, s2, s1, s0) := s in
  [ byte_of p5 p4 p3 p2 p1 p0 q5 q4; byte_of q3 q2 q1 q0 r5 r4 r3 r2;
    byte_of r1 r0 s5 s4 s3 s2 s1 s0 ].

Definition decode2 (p q r : sextet) : list byte :=
  let '(p5, p4, p3, p2, p1, p0) := p in
  let '(q5, q4, q3, q2, q1, q0) := q in
  let '(r5, r4, r3, r2, r1, r0) := r in
  [ byte_of p5 p4 p3 p2 p1 p0 q5 q4; byte_of q3 q2 q1 q0 r5 r4 r3 r2 ].

Definition decode1 (p q : sextet) : list byte :=
  let '(p5, p4, p3, p2, p1, p0) := p in
  let '(q5, q4, q3, q2, q1, q0) := q in
  [ byte_of p5 p4 p3 p2 p1 p0 q5 q4 ].

(** The last quantum of the input, where padding may stand. *)
Definition decode_last (c1 c2 c3 c4 : byte) : option (list byte) :=
  match a2b c1, a2b c2 with
  | Some p, Some q =>
      if Byte.eqb c4 PAD then
        if Byte.eqb c3 PAD then Some (decode1 p q)
        else match a2b c3 with
             | Some r => Some (decode2 p q r)
             | None => None
             end
      else match a2b c3, a2b c4 with
           | Some r, Some s => Some (decode3 p q r s)
           | _, _ => None
           end
  | _, _ => None
  end.

(** [base64.b64decode] on canonical input: quanta of four characters,
    padding only in the last one; [None] is [binascii.Error]. *)
Fixpoint b64decode (text : list byte) : option (list byte) :=
  match text with
  | [] => Some []
  | c1 :: c2 :: c3 :: c4 :: rest =>
      match rest with
      | [] => decode_last c1 c2 c3 c4
      | _ :: _ =>
          match a2b c1, a2b c2, a2b c3, a2b c4, b64decode rest with
          | Some p, Some q, Some r, Some s, Some tail =>
              Some (decode3 p q r s ++ tail)
          | _, _, _, _, _ => None
          end
      end
  | _ => None
  end.

End Base64.

(* ================================================================== *)
(** ** JSON values, [json.dumps] and a decoder *)

Module Json.

Local Open Scope string_scope.

(** What [json.loads] returns and [json.dumps] accepts.  A [float] is
    kept as its literal, a [dict] as its items in insertion order, and
    a [str] as its UTF-8 bytes (a lone surrogate as the three bytes
    that the same scheme gives it). *)
#[warnings="-register-all"]
Inductive json : Type :=
| JNull
| JBool (b : bool)
| JInt (z : Z)
| JFloat (literal : string)
| JStr (s : string)
| JList (l : list json)
| JDict (kv : list (string * json)).

Definition quote : string := String (ascii_of_nat 34) EmptyString.
Definition backslash : string := String (ascii_of_nat 92) EmptyString.

Definition hex_digit (n : nat) : ascii :=
  match String.get n "0123456789abcdef" with
  | Some ch => ch
  | None => "0"%char
  end.

(** [py_encode_basestring_ascii]: one character of a string literal,
    as [ensure_ascii=True] writes it. *)
Definition escape_char (ch : ascii) : string :=
  let n := nat_of_ascii ch in
  if (n =? 34)%nat then backslash ++ quote
  else if (n =? 92)%nat then backslash ++ backslash
  else if (n =? 10)%nat then backslash ++ "n"
  else if (n =? 13)%nat then backslash ++ "r"
  else if (n =? 9)%nat then backslash ++ "t"
  else if (n =? 12)%nat then backslash ++ "f"
  else if (n =? 8)%nat then backslash ++ "b"
  else if ((32 <=? n) && (n <=? 126))%nat then String ch EmptyString
  else backslash ++ "u00"
       ++ String (hex_digit (n / 16)) (String (hex_digit (n mod 16)) EmptyString).

Definition hex4 (n : N) : string :=
  String (hex_digit (N.to_nat (n / 4096)))
    (String (hex_digit (N.to_nat ((n / 256) mod 16)))
       (String (hex_digit (N.to_nat ((n / 16) mod 16)))
          (String (hex_digit (N.to_nat (n mod 16))) EmptyString))).

(** A character that is not ASCII: [\uXXXX], and a surrogate pair
    above the basic plane. *)
Definition escape_code_point (cp : N) : string :=
  if (cp <? 65536)%N then backslash ++ "u" ++ hex4 cp
  else
    let v := (cp - 65536)%N in
    backslash ++ "u" ++ hex4 (55296 + v / 1024)
    ++ backslash ++ "u" ++ hex4 (56320 + v mod 1024).

(** The six bits of a continuation byte of UTF-8. *)
Definition continuation (ch : ascii) : option N :=
  let n := N_of_ascii ch in
  if ((128 <=? n) && (n <? 192))%N then Some (n - 128)%N else None.

(** The characters of a string literal.  A character of two, three or
    four bytes is written by its code point; bytes that are no UTF-8,
    which no [str] gives, are written one by one. *)
Fixpoint escape (s : string) : string :=
  match s with
  | EmptyString => EmptyString
  | String ch rest =>
      let n := N_of_ascii ch in
      let alone := escape_char ch ++ escape rest in
      if (n <? 192)%N then alone
      else if (n <? 224)%N then
        match rest with
        | String c1 rest1 =>
            match continuation c1 with
            | Some b1 =>
                escape_code_point ((n - 192) * 64 + b1) ++ escape rest1
            | None => alone
            end
        | EmptyString => alone
        end
      else if (n <? 240)%N then
        match rest with
        | String c1 (String c2 rest2) =>
            match continuation c1, continuation c2 with
            | Some b1, Some b2 =>
                escape_code_point (((n - 224) * 64 + b1) * 64 + b2)
                ++ escape rest2
            | _, _ => alone
            end
        | _ => alone
        end
      else if (n <? 248)%N then
        match rest with
        | String c1 (String c2 (String c3 rest3)) =>
            match continuation c1, continuation c2, continuation c3 with
            | Some b1, Some b2, Some b3 =>
                escape_code_point
                  ((((n - 240) * 64 + b1) * 64 + b2) * 64 + b3)
                ++ escape rest3
            | _, _, _ => alone
            end
        | _ => alone
        end
      else alone
  end.

Definition dumps_str (s : string) : string := quote ++ escape s ++ quote.

Definition dumps_int (z : Z) : string := NilZero.string_of_int (Z.to_int z).

(** [json.dumps] with its default separators. *)
Fixpoint json_dumps (j : json) : string :=
  match j with
  | JNull => "null"
  | JBool true => "true"
  | JBool false => "false"
  | JInt z => dumps_int z
  | JFloat literal => literal
  | JStr s => dumps_str s
  | JList l => "[" ++ String.concat ", " (map json_dumps l) ++ "]"
  | JDict kv =>
      "{" ++ String.concat ", "
               (map (fun item => dumps_str (fst item) ++ ": "
                                 ++ json_dumps (snd item)) kv)
          ++ "}"
  end.

Fixpoint dict_get (key : string) (kv : list (string * json)) : option json :=
  match kv with
  | [] => None
  | (k, v) :: rest => if String.eqb k key then Some v else dict_get key rest
  end.

(** [d[key] = v]: an existing key keeps its place. *)
Fixpoint dict_set (key : string) (v : json) (kv : list (string * json))
  : list (string * json) :=
  match kv with
  | [] => [(key, v)]
  | (k, old) :: rest =>
      if String.eqb k key then (k, v) :: rest
      else (k, old) :: dict_set key v rest
  end.

(** [value == text] for a decoded value and a [str]. *)
Definition eq_str (value : json) (text : string) : bool :=
  match value with
  | JStr s => String.eqb s text
  | _ => false
  end.

(** *** A decoder for the documents of the protocol

    The grammar of [json.loads]: objects, arrays, strings with their
    escapes, numbers, [true], [false], [null], white space.  A [\u]
    escape gives the UTF-8 bytes of its code point, a high surrogate
    followed by a low one the bytes of the character they name.
    [None] is [json.JSONDecodeError]. *)

Definition is_ws (ch : ascii) : bool :=
  let n := nat_of_ascii ch in
  ((n =? 32) || (n =? 9) || (n =? 10) || (n =? 13))%nat.

Fixpoint skip_ws (s : string) : string :=
  match s with
  | String ch rest => if is_ws ch then skip_ws rest else s
  | EmptyString => s
  end.

Definition digit_value (ch : ascii) : option Z :=
  let n := nat_of_ascii ch in
  if ((48 <=? n) && (n <=? 57))%nat then Some (Z.of_nat (n - 48)) else None.

Definition hex_value (ch : ascii) : option N :=
  let n := N_of_ascii ch in
  if ((48 <=? n) && (n <=? 57))%N then Some (n - 48)%N
  else if ((97 <=? n) && (n <=? 102))%N then Some (n - 87)%N
  else if ((65 <=? n) && (n <=? 70))%N then Some (n - 55)%N
  else None.

(** The four hex digits of a [\u] escape. *)
Definition hex4_value (a b c d : ascii) : option N :=
  match hex_value a, hex_value b, hex_value c, hex_value d with
  | Some x, Some y, Some z, Some w =>
      Some (((x * 16 + y) * 16 + z) * 16 + w)%N
  | _, _, _, _ => None
  end.

Definition byte_char (n : N) : ascii := ascii_of_N n.

(** The UTF-8 bytes of a code point. *)
Definition utf8 (cp : N) : string :=
  if (cp <? 128)%N then String (byte_char cp) EmptyString
  else if (cp <? 2048)%N then
    String (byte_char (192 + cp / 64))
      (String (byte_char (128 + cp mod 64)) EmptyString)
  else if (cp <? 65536)%N then
    String (byte_char (224 + cp / 4096))
      (String (byte_char (128 + (cp / 64) mod 64))
         (String (byte_char (128 + cp mod 64)) EmptyString))
  else
    String (byte_char (240 + cp / 262144))
      (String (byte_char (128 + (cp / 4096) mod 64))
         (String (byte_char (128 + (cp / 64) mod 64))
            (String (byte_char (128 + cp mod 64)) EmptyString))).

Definition is_high_surrogate (v : N) : bool :=
  ((55296 <=? v) && (v <=? 56319))%N.

Definition is_low_surrogate (v : N) : bool :=
  ((56320 <=? v) && (v <=? 57343))%N.

Fixpoint scan_digits (acc : Z) (s : string) : Z * string :=
  match s with
  | String ch rest =>
      match digit_value ch with
      | Some d => scan_digits (10 * acc + d) rest
      | None => (acc, s)
      end
  | EmptyString => (acc, s)
  end.

Definition is_digit (ch : ascii) : bool :=
  match digit_value ch with Some _ => true | None => false end.

Fixpoint skip_digits (s : string) : string :=
  match s with
  | String ch rest => if is_digit ch then skip_digits rest else s
  | EmptyString => s
  end.

(** A number: an optional minus sign, [0] or digits without a leading
    zero, an optional fraction, an optional exponent.  Without fraction
    and exponent it is an [int], else a [float]. *)
Definition scan_number (s : string) : option (json * string) :=
  let '(neg, body) :=
    match s with
    | String "-"%char rest => (true, rest)
    | _ => (false, s)
    end in
  match body with
  | String ch rest =>
      match digit_value ch with
      | Some d =>
          let '(n, after_int) :=
            if (d =? 0)%Z then (0, rest) else scan_digits d rest in
          let '(after_frac, has_frac) :=
            match after_int with
            | String "."%char (String c r) =>
                if is_digit c then (skip_digits r, true) else (after_int, false)
            | _ => (after_int, false)
            end in
          let exponent (r : string) :=
            match r with
            | String c r' =>
                if is_digit c then (skip_digits r', true)
                else (after_frac, false)
            | EmptyString => (after_frac, false)
            end in
          let '(tail, has_exp) :=
            match after_frac with
            | String e r =>
                if existsb (Ascii.eqb e) ["e"; "E"]%char then
                  match r with
                  | String sign r' =>
                      if existsb (Ascii.eqb sign) ["+"; "-"]%char
                      then exponent r' else exponent r
                  | EmptyString => (after_frac, false)
                  end
                else (after_frac, false)
            | EmptyString => (after_frac, false)
            end in
          if has_frac || has_exp then
            Some (JFloat (String.substring
                            0 (String.length s - String.length tail) s), tail)
          else Some (JInt (if neg then - n else n), tail)
      | None => None
      end
  | EmptyString => None
  end.

(** The characters after an opening quote, up to the closing one. *)
Fixpoint scan_string (s : string) : option (string * string) :=
  match s with
  | EmptyString => None
  | String ch rest =>
      let n := nat_of_ascii ch in
      if (n =? 34)%nat then Some (EmptyString, rest)
      else if (n <? 32)%nat then None
      else if (n =? 92)%nat then
        match rest with
        | String e rest' =>
            let plain (c : nat) :=
              match scan_string rest' with
              | Some (text, tail) => Some (String (ascii_of_nat c) text, tail)
              | None => None
              end in
            match e with
            | "n"%char => plain 10%nat
            | "r"%char => plain 13%nat
            | "t"%char => plain 9%nat
            | "f"%char => plain 12%nat
            | "b"%char => plain 8%nat
            | "/"%char => plain 47%nat
            | "u"%char =>
                match rest' with
                | String h1 (String h2 (String h3 (String h4 rest4))) =>
                    match hex4_value h1 h2 h3 h4 with
                    | Some v =>
                        let single :=
                          match scan_string rest4 with
                          | Some (text, tail) => Some (utf8 v ++ text, tail)
                          | None => None
                          end in
                        if is_high_surrogate v then
                          match rest4 with
                          | String b (String u (String l1 (String l2
                              (String l3 (String l4 rest10))))) =>
                              match hex4_value l1 l2 l3 l4 with
                              | Some low =>
                                  if ((nat_of_ascii b =? 92)%nat
                                      && (nat_of_ascii u =? 117)%nat
                                      && is_low_surrogate low)%bool
                                  then
                                    match scan_string rest10 with
                                    | Some (text, tail) =>
                                        Some (utf8 (65536
                                                    + (v - 55296) * 1024
                                                    + (low - 56320))%N
                                              ++ text, tail)
                                    | None => None
                                    end
                                  else single
                              | None => single
                              end
                          | _ => single
                          end
                        else single
                    | None => None
                    end
                | _ => None
                end
            | _ =>
                if ((nat_of_ascii e =? 34) || (nat_of_ascii e =? 92))%nat
                then plain (nat_of_ascii e)
                else None
            end
        | EmptyString => None
        end
      else
        match scan_string rest with
        | Some (text, tail) => Some (String ch text, tail)
        | None => None
        end
  end.

Definition starts_with (p s : string) : option string :=
  if String.prefix p s
  then Some (String.substring (String.length p)
                              (String.length s - String.length p) s)
  else None.

Fixpoint scan_value (fuel : nat) (s : string) : option (json * string) :=
  match fuel with
  | O => None
  | S fuel' =>
      match skip_ws s with
      | EmptyString => None
      | String ch rest as s' =>
          let n := nat_of_ascii ch in
          if (n =? 34)%nat then
            match scan_string rest with
            | Some (text, tail) => Some (JStr text, tail)
            | None => None
            end
          else if (n =? 91)%nat then
            match skip_ws rest with
            | String "]" tail => Some (JList [], tail)
            | _ =>
                match scan_elements fuel' rest with
                | Some (l, tail) => Some (JList l, tail)
                | None => None
                end
            end
          else if (n =? 123)%nat then
            match skip_ws rest with
            | String "}" tail => Some (JDict [], tail)
            | _ =>
                match scan_members fuel' [] rest with
                | Some (kv, tail) => Some (JDict kv, tail)
                | None => None
                end
            end
          else
            match starts_with "null" s', starts_with "true" s',
                  starts_with "false" s' with
            | Some tail, _, _ => Some (JNull, tail)
            | _, Some tail, _ => Some (JBool true, tail)
            | _, _, Some tail => Some (JBool false, tail)
            | None, None, None =>
                match starts_with "NaN" s', starts_with "Infinity" s',
                      starts_with "-Infinity" s' with
                | Some tail, _, _ => Some (JFloat "NaN", tail)
                | _, Some tail, _ => Some (JFloat "Infinity", tail)
                | _, _, Some tail => Some (JFloat "-Infinity", tail)
                | None, None, None => scan_number s'
                end
            end
      end
  end

with scan_elements (fuel : nat) (s : string) : option (list json * string) :=
  match fuel with
  | O => None
  | S fuel' =>
      match scan_value fuel' s with
      | Some (v, tail) =>
          match skip_ws tail with
          | String "]" tail' => Some ([v], tail')
          | String "," tail' =>
              match scan_elements fuel' tail' with
              | Some (l, tail'') => Some (v :: l, tail'')
              | None => None
              end
          | _ => None
          end
      | None => None
      end
  end

with scan_members (fuel : nat) (acc : list (string * json)) (s : string)
  : option (list (string * json) * string) :=
  match fuel with
  | O => None
  | S fuel' =>
      match skip_ws s with
      | String ch rest =>
          if (nat_of_ascii ch =? 34)%nat then
            match scan_string rest with
            | Some (key, tail) =>
                match skip_ws tail with
                | String ":" tail' =>
                    match scan_value fuel' tail' with
                    | Some (v, tail'') =>
                        let acc' := dict_set key v acc in
                        match skip_ws tail'' with
                        | String "}" tail3 => Some (acc', tail3)
                        | String "," tail3 => scan_members fuel' acc' tail3
                        | _ => None
                        end
                    | None => None
                    end
                | _ => None
                end
            | None => None
            end
          else None
      | EmptyString => None
      end
  end.

Definition decode (s : string) : option json :=
  match scan_value (S (String.length s)) s with
  | Some (v, tail) =>
      match skip_ws tail with
      | EmptyString => Some v
      | String _ _ => None
      end
  | None => None
  end.

End Json.

Import Json.

(* ================================================================== *)
(** ** Exceptions and the ways a call can end *)

(** The exception classes the client meets.  [ClientResponseError]
    stands for its subclasses too (a refused websocket handshake is
    one); [OtherError] is any class the client names nowhere. *)
Inductive exn : Type :=
| QueueFull
| DevtoolsConnectionError
| ClientConnectorError
| ClientResponseError
| JSONDecodeError
| KeyError
| TypeError
| ConnectionResetError
| OtherError (name : string).

(** A call returns, raises, or stays suspended on an [await]. *)
Inductive outcome (A : Type) : Type :=
| Return (a : A)
| Raise (e : exn)
| Suspended.

Arguments Return {A} a.
Arguments Raise {A} e.
Arguments Suspended {A}.

(** [obj[key]] for a string key: only a [dict] takes one. *)
Definition getitem (obj : json) (key : string) : exn + json :=
  match obj with
  | JDict kv =>
      match dict_get key kv with
      | Some v => inr v
      | None => inl KeyError
      end
  | _ => inl TypeError
  end.

(* ================================================================== *)
(** ** Constants of the module *)

Definition DEFAULT_PORT : Z := 8081.
Definition WEBSOCKET_CONNECT_TIMEOUT : Z := 3.
Definition LOG_QUEUE_MAXSIZE : Z := 512.

(* ================================================================== *)
(** ** [asyncio.Queue] *)

Module Queue.

Section Queue.
Variable T : Type.

Record Queue : Type := mkQueue {
  maxsize : Z;
  items : list T;           (* the deque, oldest item first *)
  unfinished_tasks : Z
}.

Definition new (size : Z) : Queue :=
  {| maxsize := size; items := []; unfinished_tasks := 0 |}.

Definition qsize (q : Queue) : Z := Z.of_nat (List.length (items q)).

Definition empty (q : Queue) : bool :=
  match items q with [] => true | _ :: _ => false end.

(** A queue whose [maxsize] is zero or less is never full. *)
Definition full (q : Queue) : bool :=
  if maxsize q <=? 0 then false else maxsize q <=? qsize q.

(** [_put]: append on the right and count one more unfinished task. *)
Definition enqueue (item : T) (q : Queue) : Queue :=
  {| maxsize := maxsize q;
     items := items q ++ [item];
     unfinished_tasks := unfinished_tasks q + 1 |}.

Definition put_nowait (item : T) (q : Queue) : exn + Queue :=
  if full q then inl QueueFull else inr (enqueue item q).

(** [get] on a queue that holds something: pop on the left.  On an
    empty queue the caller is suspended: [None]. *)
Definition get (q : Queue) : option (T * Queue) :=
  match items q with
  | [] => None
  | item :: rest =>
      Some (item, {| maxsize := maxsize q;
                     items := rest;
                     unfinished_tasks := unfinished_tasks q |})
  end.

Definition task_done (q : Queue) : Queue :=
  {| maxsize := maxsize q;
     items := items q;
     unfinished_tasks := unfinished_tasks q - 1 |}.

End Queue.

End Queue.

Import Queue.

(* ================================================================== *)
(** ** The collaborators outside the module *)

(** Rich's rendering, [pickle] and [json.loads] are libraries; the
    client is written against them.
    - [render width height objects] is what [Console.print] records for
      [objects] on a console of that size.
    - [initial_size] is the size Rich gives a console that writes to a
      [StringIO].
    - [pickle_dumps] is [pickle.dumps] at protocol 3, [pickle_loads]
      its reader ([None] when it raises).
    - [json_loads] is [json.loads]. *)
Class Collaborators : Type := {
  Segment : Type;
  Renderable : Type;
  render : json -> json -> list Renderable -> list Segment;
  initial_size : Z * Z;
  pickle_dumps : list Segment -> list byte;
  pickle_loads : list byte -> option (list Segment);
  json_loads : string -> exn + json
}.

(* ================================================================== *)
(** ** The objects of a client *)

(** What lies on the log queue: [str | Type[ClientShutdown]]. *)
Inductive Item : Type :=
| Message (log : string)
| ClientShutdown.

(** An [asyncio.Task]: still scheduled, done, or ended by an exception. *)
Inductive Task : Type :=
| Running
| Finished
| Failed (e : exn).

(** [aiohttp.ClientSession]. *)
Record ClientSession : Type := { session_closed : bool }.

(** [aiohttp.ClientWebSocketResponse]: whether it is closed, and the
    text frames written to it, oldest first. *)
Record ClientWebSocketResponse : Type := {
  ws_closed : bool;
  ws_sent : list string
}.

Inductive WSMsgType : Type :=
| CONTINUATION | TEXT | BINARY | PING | PONG
| CLOSE | CLOSING | CLOSED | ERROR.

Record WSMessage : Type := { msg_type : WSMsgType; msg_data : string }.

Section Client.

Context `{Collaborators}.

(** [DevtoolsConsole]: a recording console.  [width] and [height] hold
    whatever was assigned to them. *)
Record DevtoolsConsole : Type := {
  width : json;
  height : json;
  record_buffer : list Segment
}.

Record DevtoolsClient : Type := {
  url : string;
  session : option ClientSession;
  log_queue_task : option Task;
  update_console_task : option Task;
  console : DevtoolsConsole;
  websocket : option ClientWebSocketResponse;
  log_queue : option (Queue Item);
  spillover : Z
}.

(** *** Assignments to the attributes *)

Definition with_session v (c : DevtoolsClient) : DevtoolsClient :=
  {| url := url c; session := v; log_queue_task := log_queue_task c;
     update_console_task := update_console_task c; console := console c;
     websocket := websocket c; log_queue := log_queue c;
     spillover := spillover c |}.

Definition with_log_queue_task v (c : DevtoolsClient) : DevtoolsClient :=
  {| url := url c; session := session c; log_queue_task := v;
     update_console_task := update_console_task c; console := console c;
     websocket := websocket c; log_queue := log_queue c;
     spillover := spillover c |}.

Definition with_update_console_task v (c : DevtoolsClient) : DevtoolsClient :=
  {| url := url c; session := session c; log_queue_task := log_queue_task c;
     update_console_task := v; console := console c;
     websocket := websocket c; log_queue := log_queue c;
     spillover := spillover c |}.

Definition with_console v (c : DevtoolsClient) : DevtoolsClient :=
  {| url := url c; session := session c; log_queue_task := log_queue_task c;
     update_console_task := update_console_task c; console := v;
     websocket := websocket c; log_queue := log_queue c;
     spillover := spillover c |}.

Definition with_websocket v (c : DevtoolsClient) : DevtoolsClient :=
  {| url := url c; session := session c; log_queue_task := log_queue_task c;
     update_console_task := update_console_task c; console := console c;
     websocket := v; log_queue := log_queue c;
     spillover := spillover c |}.

Definition with_log_queue v (c : DevtoolsClient) : DevtoolsClient :=
  {| url := url c; session := session c; log_queue_task := log_queue_task c;
     update_console_task := update_console_task c; console := console c;
     websocket := websocket c; log_queue := v;
     spillover := spillover c |}.

Definition with_spillover v (c : DevtoolsClient) : DevtoolsClient :=
  {| url := url c; session := session c; log_queue_task := log_queue_task c;
     update_console_task := update_console_task c; console := console c;
     websocket := websocket c; log_queue := log_queue c;
     spillover := v |}.

(** *** The monad of the methods *)

Definition M (A : Type) : Type := DevtoolsClient -> outcome A * DevtoolsClient.

Definition ret {A : Type} (a : A) : M A := fun c => (Return a, c).

Definition bind {A B : Type} (m : M A) (k : A -> M B) : M B :=
  fun c =>
    match m c with
    | (Return a, c') => k a c'
    | (Raise e, c') => (Raise e, c')
    | (Suspended, c') => (Suspended, c')
    end.

Definition raise {A : Type} (e : exn) : M A := fun c => (Raise e, c).

Definition read {A : Type} (attribute : DevtoolsClient -> A) : M A :=
  fun c => (Return (attribute c), c).

Definition assign (update : DevtoolsClient -> DevtoolsClient) : M unit :=
  fun c => (Return tt, update c).

(** [try: body except <classes>: handler]: the handler runs on the
    object as the body left it. *)
Definition try_except {A : Type} (body : M A) (classes : exn -> bool)
           (handler : M A) : M A :=
  fun c =>
    match body c with
    | (Raise e, c') => if classes e then handler c' else (Raise e, c')
    | other => other
    end.

End Client.

Declare Scope client_scope.
Delimit Scope client_scope with client.
Notation "x <- m ;; k" := (bind m (fun x => k))
  (at level 61, m at next level, right associativity) : client_scope.
Notation "m ;; k" := (bind m (fun _ => k))
  (at level 61, right associativity) : client_scope.

Section Methods.

Context `{Collaborators}.

Local Open Scope string_scope.
Local Open Scope Z_scope.
Local Open Scope client_scope.

(** *** [DevtoolsConsole] *)

Definition new_console : DevtoolsConsole :=
  {| width := JInt (fst initial_size);
     height := JInt (snd initial_size);
     record_buffer := [] |}.

(** [Console.print] on a recording console, when it returns: the
    rendered segments are appended to the record buffer.  (The text
    written to the console's [StringIO] is read by nobody and is left
    out.)  What the call raises instead of returning is the matter of
    [WithExceptions.print] below. *)
Definition print (objects : list Renderable) (con : DevtoolsConsole)
  : DevtoolsConsole :=
  {| width := width con;
     height := height con;
     record_buffer :=
       record_buffer con ++ render (width con) (height con) objects |}.

(** [export_segments]: a copy of the buffer, and the buffer cleared. *)
Definition export_segments (con : DevtoolsConsole)
  : list Segment * DevtoolsConsole :=
  (record_buffer con,
   {| width := width con; height := height con; record_buffer := [] |}).

Definition set_width (v : json) (con : DevtoolsConsole) : DevtoolsConsole :=
  {| width := v; height := height con; record_buffer := record_buffer con |}.

Definition set_height (v : json) (con : DevtoolsConsole) : DevtoolsConsole :=
  {| width := width con; height := v; record_buffer := record_buffer con |}.

(** *** [DevtoolsClient.__init__] *)

Definition __init__ (host : string) (port : Z) : DevtoolsClient :=
  {| url := "ws://" ++ host ++ ":" ++ dumps_int port;
     session := None;
     log_queue_task := None;
     update_console_task := None;
     console := new_console;
     websocket := None;
     log_queue := None;
     spillover := 0 |}.

(** *** [DevtoolsClient._encode_segments]

    The bytes of a base64 text are ASCII, so [str(encoded, "utf-8")]
    has one character for each byte. *)
Definition _encode_segments (segments : list Segment) : string :=
  let pickled := pickle_dumps segments in
  let encoded := Base64.b64encode pickled in
  string_of_list_byte encoded.

(** The reader on the server side of [_encode_segments]. *)
Definition decode_segments (text : string) : option (list Segment) :=
  match Base64.b64decode (list_byte_of_string text) with
  | Some pickled => pickle_loads pickled
  | None => None
  end.

(** *** [DevtoolsClient.log] *)

Definition client_log (timestamp : Z) (path : string) (lineno : Z)
           (encoded_segments : string) : json :=
  JDict [ ("type", JStr "client_log");
          ("payload",
           JDict [ ("timestamp", JInt timestamp);
                   ("path", JStr path);
                   ("line_number", JInt lineno);
                   ("encoded_segments", JStr encoded_segments) ]) ].

Definition client_spillover (count : Z) : json :=
  JDict [ ("type", JStr "client_spillover");
          ("payload", JDict [ ("spillover", JInt count) ]) ].

(** [self.log_queue.put_nowait(item)], the queue being there. *)
Definition log_queue_put_nowait (item : Item) : M unit :=
  fun c =>
    match log_queue c with
    | Some q =>
        match put_nowait item q with
        | inr q' => (Return tt, with_log_queue (Some q') c)
        | inl e => (Raise e, c)
        end
    | None => (Raise (OtherError "AttributeError"), c)
    end.

Definition is_QueueFull (e : exn) : bool :=
  match e with QueueFull => true | _ => false end.

(** [log] on arguments that [console.print] and [pickle.dumps] accept:
    the method from its first line to its last when neither call
    raises.  [WithExceptions.log] below is the method with the
    exceptions of these calls.  [now] is what
    [int(datetime.datetime.utcnow().timestamp())] gives at the call. *)
Definition log (objects : list Renderable) (path : string) (lineno : Z)
           (now : Z) : M unit :=
  assign (fun c => with_console (print objects (console c)) c) ;;
  con <- read console ;;
  let (segments, cleared) := export_segments con in
  assign (with_console cleared) ;;
  let encoded_segments := _encode_segments segments in
  let message := json_dumps (client_log now path lineno encoded_segments) in
  try_except
    (queue <- read log_queue ;;
     match queue with
     | Some _ =>
         log_queue_put_nowait (Message message) ;;
         count <- read spillover ;;
         queue' <- read log_queue ;;
         let size := match queue' with Some q => qsize q | None => 0 end in
         if (0 <? count) && (size <? LOG_QUEUE_MAXSIZE) then
           let spillover_message := json_dumps (client_spillover count) in
           log_queue_put_nowait (Message spillover_message) ;;
           assign (with_spillover 0)
         else ret tt
     | None => ret tt
     end)
    is_QueueFull
    (count <- read spillover ;; assign (with_spillover (count + 1))).

(** *** [DevtoolsClient.is_connected] *)

Definition is_connected (c : DevtoolsClient) : bool :=
  match session c, websocket c with
  | Some s, Some ws => negb (session_closed s || ws_closed ws)
  | _, _ => false
  end.

(** *** The coroutine [send_queued_logs] *)

(** [websocket.send_str]: a closed socket refuses the write. *)
Definition send_str (text : string) (ws : ClientWebSocketResponse)
  : exn + ClientWebSocketResponse :=
  if ws_closed ws then inl ConnectionResetError
  else inr {| ws_closed := false; ws_sent := ws_sent ws ++ [text] |}.

(** One turn of the loop.  [Running] with the queue untouched is the
    task suspended in [get]; [Running] otherwise is the next turn. *)
Definition send_next (q : Queue Item) (ws : ClientWebSocketResponse)
  : Task * Queue Item * ClientWebSocketResponse :=
  match get q with
  | None => (Running, q, ws)
  | Some (ClientShutdown, q1) => (Finished, task_done q1, ws)
  | Some (Message text, q1) =>
      match send_str text ws with
      | inr ws' => (Running, task_done q1, ws')
      | inl e => (Failed e, q1, ws)
      end
  end.

(** The loop, run until the task suspends or ends: one turn for each
    item that was pending when the task got control. *)
Fixpoint send_queued_logs (pending : list Item) (q : Queue Item)
         (ws : ClientWebSocketResponse)
  : Task * Queue Item * ClientWebSocketResponse :=
  match pending with
  | [] => (Running, q, ws)
  | _ :: later =>
      match send_next q ws with
      | (Running, q', ws') => send_queued_logs later q' ws'
      | stopped => stopped
      end
  end.

(** *** The coroutine [update_console] *)

(** The body of the loop, on one message. *)
Definition on_message (message : WSMessage) (con : DevtoolsConsole)
  : (exn + unit) * DevtoolsConsole :=
  match msg_type message with
  | TEXT =>
      match json_loads (msg_data message) with
      | inl e => (inl e, con)
      | inr message_json =>
          match getitem message_json "type" with
          | inl e => (inl e, con)
          | inr type =>
              if eq_str type "server_info" then
                match getitem message_json "payload" with
                | inl e => (inl e, con)
                | inr payload =>
                    match getitem payload "width" with
                    | inl e => (inl e, con)
                    | inr w =>
                        let con1 := set_width w con in
                        match getitem payload "height" with
                        | inl e => (inl e, con1)
                        | inr h => (inr tt, set_height h con1)
                        end
                    end
                end
              else (inr tt, con)
          end
      end
  | _ => (inr tt, con)
  end.

(** [async for] ends on a message that reports the socket closed. *)
Definition ends_iteration (t : WSMsgType) : bool :=
  match t with
  | CLOSE | CLOSING | CLOSED => true
  | _ => false
  end.

(** The loop over the messages that arrive, in their order.  [Running]
    is the task suspended in [receive]. *)
Fixpoint update_console (inbound : list WSMessage) (con : DevtoolsConsole)
  : Task * DevtoolsConsole :=
  match inbound with
  | [] => (Running, con)
  | message :: later =>
      if ends_iteration (msg_type message) then (Finished, con)
      else
        match on_message message con with
        | (inr _, con') => update_console later con'
        | (inl e, con') => (Failed e, con')
        end
  end.

(** *** The tasks on the event loop

    The event loop is cooperative and the methods of the client are its
    only producers.  In this model the coroutines act on the queue, the
    socket and the console held by the client; that is the object
    graph of a client that was connected once. *)

(** The sender task gets control and makes one turn of its loop. *)
Definition sender_turn (c : DevtoolsClient) : DevtoolsClient :=
  match log_queue_task c, log_queue c, websocket c with
  | Some Running, Some q, Some ws =>
      let '(state, q', ws') := send_next q ws in
      with_log_queue_task (Some state)
        (with_log_queue (Some q') (with_websocket (Some ws') c))
  | _, _, _ => c
  end.

(** The sender task gets control and runs until it suspends or ends. *)
Definition run_log_queue_task (c : DevtoolsClient) : DevtoolsClient :=
  match log_queue_task c, log_queue c, websocket c with
  | Some Running, Some q, Some ws =>
      let '(state, q', ws') := send_queued_logs (items q) q ws in
      with_log_queue_task (Some state)
        (with_log_queue (Some q') (with_websocket (Some ws') c))
  | _, _, _ => c
  end.

(** The listener task receives the messages [inbound].  The socket is
    closed once a message that ends the iteration was read. *)
Definition run_update_console_task (inbound : list WSMessage)
           (c : DevtoolsClient) : DevtoolsClient :=
  match update_console_task c, websocket c with
  | Some Running, Some ws =>
      if ws_closed ws then with_update_console_task (Some Finished) c
      else
        let '(state, con') := update_console inbound (console c) in
        let c' := with_update_console_task (Some state) (with_console con' c) in
        match state with
        | Finished =>
            with_websocket
              (Some {| ws_closed := true; ws_sent := ws_sent ws |}) c'
        | _ => c'
        end
  | _, _ => c
  end.

(** *** [DevtoolsClient.connect]

    [handshake] is how [await self.session.ws_connect(...)] ends. *)

Definition is_connect_failure (e : exn) : bool :=
  match e with
  | ClientConnectorError | ClientResponseError => true
  | _ => false
  end.

Definition await {A : Type} (o : outcome A) : M A := fun c => (o, c).

Definition connect (handshake : outcome ClientWebSocketResponse) : M unit :=
  assign (with_session (Some {| session_closed := false |})) ;;
  assign (with_log_queue (Some (Queue.new Item LOG_QUEUE_MAXSIZE))) ;;
  try_except
    (ws <- await handshake ;; assign (with_websocket (Some ws)))
    is_connect_failure
    (raise DevtoolsConnectionError) ;;
  assign (with_log_queue_task (Some Running)) ;;
  assign (with_update_console_task (Some Running)).

(** *** [DevtoolsClient.disconnect] *)

(** [await self.log_queue.put(item)]: while the queue is full the
    caller is suspended and the sender task runs; the caller stays
    suspended when that makes no room. *)
Definition log_queue_put (item : Item) : M unit :=
  fun c =>
    match log_queue c with
    | Some q =>
        if full q then
          let c1 := run_log_queue_task c in
          match log_queue c1 with
          | Some q1 =>
              if full q1 then (Suspended, c1)
              else (Return tt, with_log_queue (Some (enqueue item q1)) c1)
          | None => (Raise (OtherError "AttributeError"), c1)
          end
        else (Return tt, with_log_queue (Some (enqueue item q)) c)
    | None => (Raise (OtherError "AttributeError"), c)
    end.

(** [await self.log_queue_task]: the sender runs; its exception, if it
    ended by one, is raised in the caller. *)
Definition await_log_queue_task : M unit :=
  fun c =>
    let c1 := run_log_queue_task c in
    match log_queue_task c1 with
    | Some Running => (Suspended, c1)
    | Some (Failed e) => (Raise e, c1)
    | Some Finished | None => (Return tt, c1)
    end.

Definition _stop_log_queue_processing : M unit :=
  queue <- read log_queue ;;
  match queue with
  | Some _ => log_queue_put ClientShutdown
  | None => ret tt
  end ;;
  task <- read log_queue_task ;;
  match task with
  | Some _ => await_log_queue_task
  | None => ret tt
  end.

(** [await self.update_console_task]: no further message is delivered,
    so the listener ends only by seeing the socket closed. *)
Definition await_update_console_task : M unit :=
  fun c =>
    let c1 := run_update_console_task [] c in
    match update_console_task c1 with
    | Some Running => (Suspended, c1)
    | Some (Failed e) => (Raise e, c1)
    | Some Finished | None => (Return tt, c1)
    end.

Definition _stop_incoming_message_processing : M unit :=
  ws <- read websocket ;;
  match ws with
  | Some w =>
      assign (with_websocket
                (Some {| ws_closed := true; ws_sent := ws_sent w |}))
  | None => ret tt
  end ;;
  task <- read update_console_task ;;
  match task with
  | Some _ => await_update_console_task
  | None => ret tt
  end ;;
  s <- read session ;;
  match s with
  | Some _ => assign (with_session (Some {| session_closed := true |}))
  | None => ret tt
  end.

Definition disconnect : M unit :=
  _stop_log_queue_processing ;;
  _stop_incoming_message_processing.

(** A sequence of [log] calls, each with its arguments and its clock. *)
Record LogCall : Type := {
  call_objects : list Renderable;
  call_path : string;
  call_lineno : Z;
  call_now : Z
}.

Definition log_call (call : LogCall) : M unit :=
  log (call_objects call) (call_path call) (call_lineno call) (call_now call).

Fixpoint log_calls (calls : list LogCall) : M unit :=
  match calls with
  | [] => ret tt
  | call :: later => log_call call ;; log_calls later
  end.

End Methods.

(* ================================================================== *)
(** ** The calls that [log] makes before its [try]

    [self.console.print] on the objects and [pickle.dumps(segments)] run
    before the [try] block of [log], and only [QueueFull] is caught
    there: what the two calls raise reaches the caller of [log].
    [render] and [pickle_dumps] are what the calls give when they
    return; this class says when they raise instead, and what.
    - [print_raises width height objects] is the exception of
      [Console.print] for [objects] on a console of that size, if it
      raises (malformed markup, a width that is no number).
    - [dumps_raises segments] is the exception of [pickle.dumps] for
      [segments], if it raises.
    [json.dumps] is given a [dict] of [str] and [int] values and
    returns. *)
Class Exceptions `{Collaborators} : Type := {
  print_raises : json -> json -> list Renderable -> option exn;
  dumps_raises : list Segment -> option exn
}.

Module WithExceptions.

Section Log.

Context `{Exceptions}.

Local Open Scope string_scope.
Local Open Scope Z_scope.
Local Open Scope client_scope.

(** [self.console.print], given the objects *)
Definition print (objects : list Renderable) : M unit :=
  fun c =>
    match print_raises (width (console c)) (height (console c)) objects with
    | Some e => (Raise e, c)
    | None => (Return tt, with_console (print objects (console c)) c)
    end.

(** [self._encode_segments(segments)] *)
Definition _encode_segments (segments : list Segment) : M string :=
  fun c =>
    match dumps_raises segments with
    | Some e => (Raise e, c)
    | None => (Return (_encode_segments segments), c)
    end.

(** [DevtoolsClient.log] *)
Definition log (objects : list Renderable) (path : string) (lineno : Z)
           (now : Z) : M unit :=
  print objects ;;
  con <- read console ;;
  let (segments, cleared) := export_segments con in
  assign (with_console cleared) ;;
  encoded_segments <- _encode_segments segments ;;
  let message := json_dumps (client_log now path lineno encoded_segments) in
  try_except
    (queue <- read log_queue ;;
     match queue with
     | Some _ =>
         log_queue_put_nowait (Message message) ;;
         count <- read spillover ;;
         queue' <- read log_queue ;;
         let size := match queue' with Some q => qsize q | None => 0 end in
         if (0 <? count) && (size <? LOG_QUEUE_MAXSIZE) then
           let spillover_message := json_dumps (client_spillover count) in
           log_queue_put_nowait (Message spillover_message) ;;
           assign (with_spillover 0)
         else ret tt
     | None => ret tt
     end)
    is_QueueFull
    (count <- read spillover ;; assign (with_spillover (count + 1))).

Definition log_call (call : LogCall) : M unit :=
  log (call_objects call) (call_path call) (call_lineno call) (call_now call).

End Log.

End WithExceptions.

(* ================================================================== *)
(** ** An instance of the collaborators, for closed examples

    Objects and segments are plain strings, an object renders to
    itself, the serializer writes each character after a byte 1 and
    ends each segment with a byte 0, and the JSON reader is
    [Json.decode]. *)

Module PlainText.

Fixpoint dump_text (text : list byte) : list byte :=
  match text with
  | [] => [x00]
  | b :: rest => x01 :: b :: dump_text rest
  end.

Definition dumps (segments : list string) : list byte :=
  flat_map (fun s => dump_text (list_byte_of_string s)) segments.

Fixpoint loads_from (seen : list byte) (data : list byte)
  : option (list string) :=
  match data with
  | [] => match seen with [] => Some [] | _ :: _ => None end
  | x00 :: rest =>
      match loads_from [] rest with
      | Some segments => Some (string_of_list_byte (rev seen) :: segments)
      | None => None
      end
  | x01 :: b :: rest => loads_from (b :: seen) rest
  | _ => None
  end.

Definition loads (data : list byte) : option (list string) :=
  loads_from [] data.

Definition loads_json (text : string) : exn + json :=
  match Json.decode text with
  | Some v => inr v
  | None => inl JSONDecodeError
  end.

#[export] Instance collaborators : Collaborators := {
  Segment := string;
  Renderable := string;
  render := fun _ _ objects => objects;
  initial_size := (80, 25);
  pickle_dumps := dumps;
  pickle_loads := loads;
  json_loads := loads_json
}.

(** Rich reads an object as console markup: a closing tag that closes
    nothing is a [MarkupError].  The width of the console is used in
    arithmetic: a [str], a [list] or a [dict] there is a [TypeError]. *)
Definition markup_error (objects : list string) : bool :=
  existsb (String.prefix "[/b]") objects.

Definition print_error (w h : json) (objects : list string) : option exn :=
  if markup_error objects then Some (OtherError "MarkupError")
  else
    match w with
    | JStr _ | JList _ | JDict _ => Some TypeError
    | _ => None
    end.

#[export] Instance exceptions : Exceptions := {
  print_raises := print_error;
  dumps_raises := fun _ => None
}.

End PlainText.

(* ================================================================== *)
(** ** Vocabulary of the properties *)

Section Vocabulary.

Context `{Collaborators}.

Local Open Scope string_scope.
Local Open Scope Z_scope.

(** The console once [log] has printed [objects] and exported the
    segments. *)
Definition printed (objects : list Renderable) (c : DevtoolsClient)
  : DevtoolsClient :=
  with_console (snd (export_segments (print objects (console c)))) c.

(** The record [log] builds on client [c]. *)
Definition log_record (objects : list Renderable) (path : string)
           (lineno now : Z) (c : DevtoolsClient) : string :=
  json_dumps
    (client_log now path lineno
       (_encode_segments (fst (export_segments (print objects (console c)))))).

Definition call_record (call : LogCall) (c : DevtoolsClient) : string :=
  log_record (call_objects call) (call_path call) (call_lineno call)
             (call_now call) c.

(** The spillover notice for [count] discarded messages. *)
Definition spillover_notice (count : Z) : string :=
  json_dumps (client_spillover count).

Definition queue_items (c : DevtoolsClient) : list Item :=
  match log_queue c with
  | Some q => items q
  | None => []
  end.

Definition queue_size (c : DevtoolsClient) : Z :=
  Z.of_nat (List.length (queue_items c)).


(** The text frames written to the socket so far. *)
Definition sent_frames (c : DevtoolsClient) : list string :=
  match websocket c with
  | Some ws => ws_sent ws
  | None => []
  end.

(** The state a successful [connect] sets up and [log] keeps: an open
    session and socket, a queue of the module's capacity, both tasks
    scheduled. *)
Definition connected (c : DevtoolsClient) : Prop :=
  (exists s, session c = Some s /\ session_closed s = false)
  /\ (exists ws, websocket c = Some ws /\ ws_closed ws = false)
  /\ (exists q, log_queue c = Some q /\ maxsize q = LOG_QUEUE_MAXSIZE)
  /\ log_queue_task c = Some Running
  /\ update_console_task c = Some Running.

(** A successful [connect] on a client just made. *)
Definition fresh_connection (host : string) (port : Z)
           (sent : list string) : DevtoolsClient :=
  snd (connect (Return {| ws_closed := false; ws_sent := sent |})
               (__init__ host port)).

(** *** Statements that the code is tried against *)

(** The queue at capacity and the counter positive; the sender takes
    one item; then [log] enqueues its record and one notice and resets
    the counter. *)
Definition notice_after_one_slot (c : DevtoolsClient) (call : LogCall)
  : Prop :=
  connected c -> queue_size c = LOG_QUEUE_MAXSIZE -> 0 < spillover c ->
  let c1 := sender_turn c in
  let c2 := snd (log_call call c1) in
  queue_items c2 =
    (queue_items c1 ++ [Message (call_record call c1);
                        Message (spillover_notice (spillover c))])%list
  /\ spillover c2 = 0.

(** A failed [connect] raises [DevtoolsConnectionError] and leaves the
    client as it was. *)
Definition failed_connect_leaves_nothing (c : DevtoolsClient) (e : exn)
  : Prop :=
  connect (Raise e) c = (Raise DevtoolsConnectionError, c).

(** The listener ignores a message or applies it; it never ends on one. *)
Definition message_tolerated (message : WSMessage) (con : DevtoolsConsole)
  : Prop :=
  on_message message con = (inr tt, con)
  \/ exists w h, on_message message con = (inr tt, set_height h (set_width w con)).

End Vocabulary.

Section VocabularyOfLog.

Context `{Exceptions}.



End VocabularyOfLog.

(* ================================================================== *)
(** ** Closed examples *)

Module Examples.

Import PlainText.

Local Open Scope string_scope.
Local Open Scope Z_scope.

Definition hello : LogCall :=
  {| call_objects := ["hello"];
     call_path := "app.py";
     call_lineno := 5;
     call_now := 1700000000 |}.


(** A client just made, and the same client connected. *)
Definition unconnected : DevtoolsClient := __init__ "127.0.0.1" DEFAULT_PORT.

Definition fresh : DevtoolsClient :=
  fresh_connection "127.0.0.1" DEFAULT_PORT [].

(** [fresh] after 513 calls of [log] and no turn of the sender: the
    queue holds 512 records and one record was discarded. *)
Definition saturated : DevtoolsClient :=
  snd (log_calls (repeat hello 513) fresh).

(** [saturated] once the sender has taken two records. *)
Definition two_slots_free : DevtoolsClient :=
  sender_turn (sender_turn saturated).

(** The queue of a client that has one. *)
Definition queue_of (c : DevtoolsClient) : Queue Item :=
  match log_queue c with
  | Some q => q
  | None => Queue.new Item 0
  end.

Definition text_frame (data : string) : WSMessage :=
  {| msg_type := TEXT; msg_data := data |}.

Definition server_info (w h : Z) : WSMessage :=
  text_frame
    (json_dumps
       (JDict [ ("type", JStr "server_info");
                ("payload", JDict [ ("width", JInt w); ("height", JInt h) ]) ])).

(** A text frame that is no JSON document. *)
Definition not_json : WSMessage := text_frame "oops".

(** A ["server_info"] frame that gives a width and no height. *)
Definition width_only (w : Z) : WSMessage :=
  text_frame
    (json_dumps
       (JDict [ ("type", JStr "server_info");
                ("payload", JDict [ ("width", JInt w) ]) ])).

(** A ["server_info"] frame whose width is a text. *)
Definition text_width : WSMessage :=
  text_frame
    (json_dumps
       (JDict [ ("type", JStr "server_info");
                ("payload", JDict [ ("width", JStr "wide");
                                    ("height", JInt 24) ]) ])).

(** The frame by which the server closes the socket. *)
Definition close_frame : WSMessage :=
  {| msg_type := CLOSE; msg_data := EmptyString |}.

(** [unconnected] after a connection that was refused, and the same
    client after 512 calls of [log]. *)
Definition refused : DevtoolsClient :=
  snd (connect (Raise ClientConnectorError) unconnected).

Definition stranded : DevtoolsClient :=
  snd (log_calls (repeat hello 512) refused).

End Examples.

(* ================================================================== *)
(** ** Interleavings of the caller and the tasks *)

Section Interleavings.

Context `{Collaborators}.

(** What can happen to a client between two points of its life: the
    caller logs, the sender task gets control for one turn or until it
    suspends, the listener task receives messages. *)
Inductive Event : Type :=
| Logs (call : LogCall)
| SenderTurn
| SenderRuns
| Receives (inbound : list WSMessage).

Definition happen (event : Event) (c : DevtoolsClient) : DevtoolsClient :=
  match event with
  | Logs call => snd (log_call call c)
  | SenderTurn => sender_turn c
  | SenderRuns => run_log_queue_task c
  | Receives inbound => run_update_console_task inbound c
  end.

Definition happen_all (events : list Event) (c : DevtoolsClient)
  : DevtoolsClient :=
  fold_left (fun c' event => happen event c') events c.

(** The queue of a client within its capacity. *)
Definition within_capacity (c : DevtoolsClient) : Prop :=
  exists q,
    log_queue c = Some q /\ maxsize q = LOG_QUEUE_MAXSIZE
    /\ (qsize q <= LOG_QUEUE_MAXSIZE)%Z.

(** The socket never reports closed and no message arrives. *)
Definition quiet (event : Event) : bool :=
  match event with
  | Receives _ => false
  | _ => true
  end.

End Interleavings.

(* ================================================================== *)
(** ** [textual/_box.py]: a renderable framed by box-drawing borders *)

Module TextualBox.

Local Open Scope string_scope.
Local Open Scope Z_scope.

(** Python's [str]: a sequence of code points. *)
Definition str : Type := list N.

Definition of_ascii (s : string) : str :=
  map N_of_ascii (list_ascii_of_string s).

Fixpoint str_eqb (a b : str) : bool :=
  match a, b with
  | [], [] => true
  | x :: a', y :: b' => N.eqb x y && str_eqb a' b'
  | _, _ => false
  end.

(** [bool(s)] and its value as an [int]. *)
Definition truthy (s : str) : bool :=
  match s with [] => false | _ :: _ => true end.

Definition int_of_bool (b : bool) : Z := if b then 1 else 0.

(** [s[i]]: the one-character string at index [i]. *)
Definition str_at (s : str) (i : nat) : exn + str :=
  match nth_error s i with
  | Some char => inr [char]
  | None => inl (OtherError "IndexError")
  end.

(** [a, b, c = iter(s)] *)
Definition unpack3 (s : str) : exn + (N * N * N) :=
  match s with
  | [a; b; c] => inr (a, b, c)
  | _ => inl (OtherError "ValueError")
  end.

(** The rows of a box style: top, middle, bottom. *)
Definition BoxRows : Type := (str * str * str)%type.

Definition BOX_STYLES : list (str * BoxRows) :=
  [ ([],
     ([0x20; 0x20; 0x20], [0x20; 0x20; 0x20], [0x20; 0x20; 0x20]));
    (of_ascii "rounded",
     ([0x256d; 0x2500; 0x256e], [0x2502; 0x20; 0x2502],
      [0x2570; 0x2500; 0x256f]));
    (of_ascii "solid",
     ([0x250c; 0x2500; 0x2510], [0x2502; 0x20; 0x2502],
      [0x2514; 0x2500; 0x2518]));
    (of_ascii "double",
     ([0x2554; 0x2550; 0x2557], [0x2551; 0x20; 0x2551],
      [0x255a; 0x2550; 0x255d]));
    (of_ascii "dashed",
     ([0x250f; 0x254d; 0x2513], [0x254f; 0x20; 0x254f],
      [0x2517; 0x254d; 0x251b]));
    (of_ascii "heavy",
     ([0x250f; 0x2501; 0x2513], [0x2503; 0x20; 0x2503],
      [0x2517; 0x2501; 0x251b]));
    (of_ascii "inner",
     ([0x2597; 0x2584; 0x2596], [0x2590; 0x20; 0x258c],
      [0x259d; 0x2580; 0x2598]));
    (of_ascii "outer",
     ([0x259b; 0x2580; 0x259c], [0x258c; 0x20; 0x2590],
      [0x2599; 0x2584; 0x259f])) ]%N.

(** [table[key]] *)
Fixpoint subscript (table : list (str * BoxRows)) (key : str)
  : exn + BoxRows :=
  match table with
  | [] => inl KeyError
  | (name, rows) :: rest =>
      if str_eqb key name then inr rows else subscript rest key
  end.

Definition top_row (rows : BoxRows) : str := fst (fst rows).
Definition middle_row (rows : BoxRows) : str := snd (fst rows).
Definition bottom_row (rows : BoxRows) : str := snd rows.

Section Render.

(** rich's styles and renderables, and the two methods of its console
    that [Box] calls. *)
Variable Style : Type.
Variable Renderable : Type.

Record Segment : Type := {
  text : str;
  style : option Style
}.

Variable get_style : str -> exn + Style.
Variable render_lines : Renderable -> Z -> exn + list (list Segment).

(** [Segment.line()] *)
Definition line : Segment := {| text := [10%N]; style := None |}.

Record Box : Type := {
  renderable : Renderable;
  sides : str * str * str * str;
  styles : str * str * str * str
}.

(** A generator: what it has yielded, and how it went on, by an
    exception or with a value. *)
Definition Gen (A : Type) : Type := (list Segment * (exn + A))%type.

Definition done {A : Type} (a : A) : Gen A := ([], inr a).

Definition eval {A : Type} (r : exn + A) : Gen A := ([], r).

Definition yield (s : Segment) : Gen unit := ([s], inr tt).

Definition yield_from (segments : list Segment) : Gen unit :=
  (segments, inr tt).

Definition then_ {A B : Type} (m : Gen A) (k : A -> Gen B) : Gen B :=
  match m with
  | (out, inl e) => (out, inl e)
  | (out, inr a) => let (out', r) := k a in ((out ++ out')%list, r)
  end.

Fixpoint for_each {A : Type} (l : list A) (body : A -> Gen unit)
  : Gen unit :=
  match l with
  | [] => done tt
  | x :: rest => then_ (body x) (fun _ => for_each rest body)
  end.

Declare Scope gen_scope.
Delimit Scope gen_scope with gen.
Local Notation "x <- m ;; k" := (then_ m (fun x => k))
  (at level 61, m at next level, right associativity) : gen_scope.
Local Notation "m ;; k" := (then_ m (fun _ => k))
  (at level 61, right associativity) : gen_scope.
Local Open Scope gen_scope.

(** [side if side != "none" else ""] *)
Definition side_name (side : str) : str :=
  if negb (str_eqb side (of_ascii "none")) then side else [].

(** The f-string of a top or bottom row. *)
Definition border_row (chars : str) (left right : str) (render_width : Z)
  : exn + str :=
  match unpack3 chars with
  | inl e => inl e
  | inr (char_left, char_mid, char_right) =>
      inr ((if truthy left then [char_left] else [])
           ++ repeat char_mid (Z.to_nat render_width)
           ++ (if truthy right then [char_right] else []))%list
  end.

Definition __rich_console__ (self : Box) (max_width : Z) : Gen unit :=
  let width := max_width in
  let '(side1, side2, side3, side4) := sides self in
  let top := side_name side1 in
  let right := side_name side2 in
  let bottom := side_name side3 in
  let left := side_name side4 in
  let '(top_name, right_name, bottom_name, left_name) := styles self in
  top_style <- eval (get_style top_name) ;;
  right_style <- eval (get_style right_name) ;;
  bottom_style <- eval (get_style bottom_name) ;;
  left_style <- eval (get_style left_name) ;;
  let BOX := BOX_STYLES in
  let render_width :=
    width - int_of_bool (truthy left) - int_of_bool (truthy right) in
  lines <- eval (render_lines (renderable self) render_width) ;;
  let new_line := line in
  (if negb (str_eqb top (of_ascii "none")) then
     rows <- eval (subscript BOX top) ;;
     row <- eval (border_row (top_row rows) left right render_width) ;;
     yield {| text := row; style := Some top_style |} ;;
     yield new_line
   else done tt) ;;
  (if negb (truthy left) && negb (truthy right) then
     for_each lines (fun line => yield_from line ;; yield new_line)
   else if truthy left && truthy right then
     rows <- eval (subscript BOX left) ;;
     char <- eval (str_at (middle_row rows) 0) ;;
     let left_segment := {| text := char; style := Some left_style |} in
     rows <- eval (subscript BOX right) ;;
     char <- eval (str_at (middle_row rows) 2) ;;
     let right_segment :=
       {| text := (char ++ [10%N])%list; style := Some right_style |} in
     for_each lines
       (fun line =>
          yield left_segment ;; yield_from line ;; yield right_segment)
   else if truthy left then
     rows <- eval (subscript BOX left) ;;
     char <- eval (str_at (middle_row rows) 0) ;;
     let left_segment := {| text := char; style := Some left_style |} in
     for_each lines
       (fun line => yield left_segment ;; yield_from line ;; yield new_line)
   else if truthy right then
     rows <- eval (subscript BOX right) ;;
     char <- eval (str_at (middle_row rows) 2) ;;
     let right_segment :=
       {| text := (char ++ [10%N])%list; style := Some right_style |} in
     for_each lines (fun line => yield_from line ;; yield right_segment)
   else done tt) ;;
  (if truthy bottom then
     rows <- eval (subscript BOX bottom) ;;
     row <- eval (border_row (bottom_row rows) left right render_width) ;;
     yield {| text := row; style := Some bottom_style |} ;;
     yield new_line
   else done tt).

(** The side names [Box] can draw: ["none"] and the keys of
    [BOX_STYLES]. *)
Definition known_side (side : str) : bool :=
  existsb (str_eqb (side_name side)) (map fst BOX_STYLES).

(** The text a list of segments carries. *)
Definition text_of (segments : list Segment) : str :=
  List.concat (map text segments).

End Render.

End TextualBox.

(** A console for examples: every style name resolves to itself but
    ["bogus"], and a renderable is a list of lines of text, cut or
    padded with spaces to the width. *)
Module BoxExamples.

Import TextualBox.

Local Open Scope string_scope.
Local Open Scope Z_scope.

Definition get_style (name : str) : exn + str :=
  if str_eqb name (of_ascii "bogus") then inl (OtherError "MissingStyle")
  else inr name.

Definition fit (width : Z) (content : str) : str :=
  firstn (Z.to_nat width)
         (content ++ repeat 32%N (Z.to_nat width))%list.

Definition render_lines (content : list str) (width : Z)
  : exn + list (list (Segment str)) :=
  inr (map (fun l => [ {| text := fit width l; style := None |} ]) content).

(** The box of the module's [__main__] block. *)
Definition foo : Box (list str) :=
  {| renderable := [of_ascii "foo"];
     sides := (of_ascii "rounded", of_ascii "rounded",
               of_ascii "rounded", of_ascii "rounded");
     styles := (of_ascii "green", of_ascii "green",
                of_ascii "green", of_ascii "on green") |}.

Definition with_sides (sides : str * str * str * str)
           (box : Box (list str)) : Box (list str) :=
  {| renderable := renderable box; sides := sides; styles := styles box |}.

Definition with_styles (styles : str * str * str * str)
           (box : Box (list str)) : Box (list str) :=
  {| renderable := renderable box; sides := sides box; styles := styles |}.

End BoxExamples.

(* ================================================================== *)
(** * Properties *)

(** ** Base64: decoding inverts encoding *)

Module Base64Facts.

Import Base64.

Lemma a2b_b2a (s : sextet) : a2b (b2a s) = Some s.
Proof.
  destruct s as [[[[[a b] c] d] e] f].
  destruct a, b, c, d, e, f; reflexivity.
Qed.

Lemma b2a_not_PAD (s : sextet) : Byte.eqb (b2a s) PAD = false.
Proof.
  destruct s as [[[[[a b] c] d] e] f].
  destruct a, b, c, d, e, f; reflexivity.
Qed.

Lemma b2a_ascii (s : sextet) : (Byte.to_N (b2a s) < 128)%N.
Proof.
  destruct s as [[[[[a b] c] d] e] f].
  destruct a, b, c, d, e, f; reflexivity.
Qed.

Ltac split_bits x :=
  let E := fresh "E" x in
  destruct (Byte.to_bits x) as [? [? [? [? [? [? [? ?]]]]]]] eqn:E.

Ltac join_bits :=
  unfold byte_of;
  repeat match goal with
         | E : Byte.to_bits ?x = _ |- _ =>
             rewrite <- E, Byte.of_bits_to_bits; clear E
         end.

Lemma encode3_sextets (x y z : byte) :
  exists p q r s,
    encode3 x y z = [b2a p; b2a q; b2a r; b2a s]
    /\ decode3 p q r s = [x; y; z].
Proof.
  unfold encode3. split_bits x. split_bits y. split_bits z.
  do 4 eexists. split; [reflexivity|].
  unfold decode3. join_bits. reflexivity.
Qed.

Lemma encode2_sextets (x y : byte) :
  exists p q r,
    encode2 x y = [b2a p; b2a q; b2a r; PAD] /\ decode2 p q r = [x; y].
Proof.
  unfold encode2. split_bits x. split_bits y.
  do 3 eexists. split; [reflexivity|].
  unfold decode2. join_bits. reflexivity.
Qed.

Lemma encode1_sextets (x : byte) :
  exists p q, encode1 x = [b2a p; b2a q; PAD; PAD] /\ decode1 p q = [x].
Proof.
  unfold encode1. split_bits x.
  do 2 eexists. split; [reflexivity|].
  unfold decode1. join_bits. reflexivity.
Qed.

Lemma b64decode_last_quantum (c1 c2 c3 c4 : byte) :
  b64decode [c1; c2; c3; c4] = decode_last c1 c2 c3 c4.
Proof. reflexivity. Qed.

Lemma b64decode_quantum (c1 c2 c3 c4 c5 : byte) (rest : list byte) :
  b64decode (c1 :: c2 :: c3 :: c4 :: c5 :: rest) =
  match a2b c1, a2b c2, a2b c3, a2b c4, b64decode (c5 :: rest) with
  | Some p, Some q, Some r, Some s, Some tail => Some (decode3 p q r s ++ tail)
  | _, _, _, _, _ => None
  end.
Proof. reflexivity. Qed.

Lemma b64encode_nil_inv (data : list byte) : b64encode data = [] -> data = [].
Proof.
  destruct data as [|x [|y [|z rest]]]; [reflexivity| | |].
  - destruct (encode1_sextets x) as (p & q & E & _). simpl. rewrite E. discriminate.
  - destruct (encode2_sextets x y) as (p & q & r & E & _). simpl. rewrite E. discriminate.
  - destruct (encode3_sextets x y z) as (p & q & r & s & E & _).
    change (b64encode (x :: y :: z :: rest))
      with (encode3 x y z ++ b64encode rest).
    rewrite E. discriminate.
Qed.

(** Induction over a byte string three bytes at a time. *)
Lemma triples_ind (P : list byte -> Prop) :
  P [] -> (forall x, P [x]) -> (forall x y, P [x; y]) ->
  (forall x y z rest, P rest -> P (x :: y :: z :: rest)) ->
  forall data, P data.
Proof.
  intros H0 H1 H2 H3.
  assert (forall data, P data /\ (forall x, P (x :: data))
                       /\ (forall x y, P (x :: y :: data))) as All.
  { induction data as [|z rest (IH0 & IH1 & IH2)].
    - repeat split; auto.
    - repeat split; auto. }
  intro data. apply All.
Qed.

Lemma b64decode_b64encode (data : list byte) :
  b64decode (b64encode data) = Some data.
Proof.
  induction data as [|x|x y|x y z rest IH] using triples_ind.
  - reflexivity.
  - destruct (encode1_sextets x) as (p & q & E & D).
    change (b64encode [x]) with (encode1 x). rewrite E, b64decode_last_quantum.
    unfold decode_last. rewrite !a2b_b2a. change (Byte.eqb PAD PAD) with true.
    cbv iota. now rewrite D.
  - destruct (encode2_sextets x y) as (p & q & r & E & D).
    change (b64encode [x; y]) with (encode2 x y).
    rewrite E, b64decode_last_quantum.
    unfold decode_last. rewrite !a2b_b2a. change (Byte.eqb PAD PAD) with true.
    cbv iota. rewrite b2a_not_PAD. now rewrite D.
  - destruct (encode3_sextets x y z) as (p & q & r & s & E & D).
    change (b64encode (x :: y :: z :: rest))
      with (encode3 x y z ++ b64encode rest).
    rewrite E. destruct (b64encode rest) as [|c5 tail] eqn:Erest.
    + apply b64encode_nil_inv in Erest. subst rest.
      change ([b2a p; b2a q; b2a r; b2a s] ++ [])
        with [b2a p; b2a q; b2a r; b2a s].
      rewrite b64decode_last_quantum. unfold decode_last.
      rewrite !a2b_b2a, b2a_not_PAD. now rewrite D.
    + change ([b2a p; b2a q; b2a r; b2a s] ++ c5 :: tail)
        with (b2a p :: b2a q :: b2a r :: b2a s :: c5 :: tail).
      rewrite b64decode_quantum, !a2b_b2a, IH, D. reflexivity.
Qed.

(** Every byte of a base64 text is an ASCII character. *)
Lemma b64encode_ascii (data : list byte) :
  Forall (fun b => (Byte.to_N b < 128)%N) (b64encode data).
Proof.
  assert (Hpad : (Byte.to_N PAD < 128)%N) by reflexivity.
  induction data as [|x|x y|x y z rest IH] using triples_ind.
  - constructor.
  - destruct (encode1_sextets x) as (p & q & E & _).
    change (b64encode [x]) with (encode1 x). rewrite E.
    repeat constructor; auto using b2a_ascii.
  - destruct (encode2_sextets x y) as (p & q & r & E & _).
    change (b64encode [x; y]) with (encode2 x y). rewrite E.
    repeat constructor; auto using b2a_ascii.
  - destruct (encode3_sextets x y z) as (p & q & r & s & E & _).
    change (b64encode (x :: y :: z :: rest))
      with (encode3 x y z ++ b64encode rest).
    rewrite E. apply Forall_app. split; [|exact IH].
    repeat constructor; auto using b2a_ascii.
Qed.

(** The test vectors of RFC 4648, section 10. *)
Example rfc4648_vectors :
  map (fun s => string_of_list_byte (b64encode (list_byte_of_string s)))
      ["f"; "fo"; "foo"; "foob"; "fooba"; "foobar"]%string
  = ["Zg=="; "Zm8="; "Zm9v"; "Zm9vYg=="; "Zm9vYmE="; "Zm9vYmFy"]%string.
Proof. reflexivity. Qed.

End Base64Facts.

(* ================================================================== *)
(** ** [log]: what one call does *)

Arguments json_dumps : simpl never.
Arguments full : simpl never.
Arguments qsize : simpl never.

Section LogFacts.

Context `{Collaborators}.

Local Open Scope Z_scope.

Ltac run_log :=
  unfold log, log_call, bind, assign, read, ret, try_except,
    log_queue_put_nowait, put_nowait, printed, log_record, call_record,
    spillover_notice, _encode_segments; cbn.

Lemma qsize_enqueue (item : Item) (q : Queue Item) :
  qsize (enqueue item q) = qsize q + 1.
Proof.
  unfold qsize, enqueue. cbn. rewrite length_app. cbn. lia.
Qed.

Lemma full_at_capacity (q : Queue Item) :
  maxsize q = LOG_QUEUE_MAXSIZE ->
  full q = (LOG_QUEUE_MAXSIZE <=? qsize q).
Proof.
  intro Hmax. unfold full. rewrite Hmax. reflexivity.
Qed.


(** On a full queue the record is dropped and counted. *)
Lemma log_on_full_queue objects path lineno now c q :
  log_queue c = Some q -> full q = true ->
  log objects path lineno now c
  = (Return tt, with_spillover (spillover c + 1) (printed objects c)).
Proof.
  intros Hq Hfull. destruct c; cbn in Hq; subst.
  run_log. rewrite Hfull. reflexivity.
Qed.

(** With room, and no notice due or no room left for one, the record
    alone is enqueued. *)
Lemma log_enqueues_record objects path lineno now c q :
  log_queue c = Some q -> full q = false ->
  (0 <? spillover c) && (qsize q + 1 <? LOG_QUEUE_MAXSIZE) = false ->
  log objects path lineno now c
  = (Return tt,
     with_log_queue
       (Some (enqueue (Message (log_record objects path lineno now c)) q))
       (printed objects c)).
Proof.
  intros Hq Hfull Hguard. destruct c; cbn in Hq, Hguard; subst.
  run_log. rewrite Hfull. cbn. rewrite qsize_enqueue, Hguard. reflexivity.
Qed.

(** With room for two and a notice due, the record and the notice are
    enqueued and the counter is reset. *)
Lemma log_enqueues_notice objects path lineno now c q :
  log_queue c = Some q -> maxsize q = LOG_QUEUE_MAXSIZE ->
  0 < spillover c -> qsize q + 1 < LOG_QUEUE_MAXSIZE ->
  log objects path lineno now c
  = (Return tt,
     with_spillover 0
       (with_log_queue
          (Some (enqueue (Message (spillover_notice (spillover c)))
                   (enqueue (Message (log_record objects path lineno now c))
                            q)))
          (printed objects c))).
Proof.
  intros Hq Hmax Hpos Hroom.
  assert (Hfull : full q = false).
  { rewrite full_at_capacity by assumption. apply Z.leb_gt. lia. }
  destruct c; cbn in Hq, Hpos; subst.
  run_log. rewrite Hfull. cbn. rewrite qsize_enqueue.
  replace (0 <? spillover0) with true by (symmetry; apply Z.ltb_lt; lia).
  replace (qsize q + 1 <? LOG_QUEUE_MAXSIZE) with true
    by (symmetry; apply Z.ltb_lt; lia).
  cbn. rewrite full_at_capacity by assumption. rewrite qsize_enqueue.
  replace (LOG_QUEUE_MAXSIZE <=? qsize q + 1) with false
    by (symmetry; apply Z.leb_gt; lia).
  reflexivity.
Qed.

End LogFacts.

(* ================================================================== *)
(** ** Sequences of [log] calls *)

Section LogSequences.

Context `{Collaborators}.

Local Open Scope Z_scope.

Lemma log_calls_app (calls later : list LogCall) (c : DevtoolsClient) :
  log_calls (calls ++ later) c
  = match log_calls calls c with
    | (Return _, c') => log_calls later c'
    | stopped => stopped
    end.
Proof.
  revert c. induction calls as [|call calls IH]; intro c; [reflexivity|].
  cbn [log_calls app]. unfold bind.
  destruct (log_call call c) as [[[]| |] c1]; [apply IH|reflexivity..].
Qed.


(** While there is room and nothing was discarded, each call adds one
    record. *)
Lemma log_calls_fill (calls : list LogCall) :
  forall c q,
    log_queue c = Some q -> maxsize q = LOG_QUEUE_MAXSIZE ->
    spillover c = 0 ->
    qsize q + Z.of_nat (List.length calls) <= LOG_QUEUE_MAXSIZE ->
    exists c' q',
      log_calls calls c = (Return tt, c')
      /\ log_queue c' = Some q' /\ maxsize q' = LOG_QUEUE_MAXSIZE
      /\ qsize q' = qsize q + Z.of_nat (List.length calls)
      /\ spillover c' = 0.
Proof.
  induction calls as [|call calls IH]; intros c q Hq Hmax Hsp Hroom.
  - exists c, q. cbn. repeat split; auto; lia.
  - cbn [Datatypes.length] in Hroom.
    assert (Hfull : full q = false).
    { rewrite full_at_capacity by assumption. apply Z.leb_gt. lia. }
    pose proof (log_enqueues_record (call_objects call) (call_path call)
                  (call_lineno call) (call_now call) c Hq Hfull) as Hlog.
    rewrite Hsp in Hlog. specialize (Hlog eq_refl).
    set (q1 := enqueue _ q) in Hlog. set (c1 := with_log_queue _ _) in Hlog.
    destruct (IH c1 q1) as (c' & q' & Hrun & Hq' & Hmax' & Hsize & Hsp').
    + reflexivity.
    + exact Hmax.
    + exact Hsp.
    + subst q1. rewrite qsize_enqueue. lia.
    + exists c', q'. cbn [log_calls]. unfold bind, log_call.
      rewrite Hlog, Hrun. repeat split; auto.
      rewrite Hsize. subst q1. rewrite qsize_enqueue.
      cbn [Datatypes.length]. lia.
Qed.

(** On a queue at capacity each call is discarded and counted. *)
Lemma log_calls_drop (calls : list LogCall) :
  forall c q,
    log_queue c = Some q -> maxsize q = LOG_QUEUE_MAXSIZE ->
    qsize q = LOG_QUEUE_MAXSIZE ->
    exists c',
      log_calls calls c = (Return tt, c')
      /\ log_queue c' = Some q
      /\ spillover c' = spillover c + Z.of_nat (List.length calls).
Proof.
  induction calls as [|call calls IH]; intros c q Hq Hmax Hsize.
  - exists c. cbn. repeat split; auto; lia.
  - assert (Hfull : full q = true).
    { rewrite full_at_capacity by assumption. apply Z.leb_le. lia. }
    pose proof (log_on_full_queue (call_objects call) (call_path call)
                  (call_lineno call) (call_now call) c Hq Hfull) as Hlog.
    set (c1 := with_spillover _ _) in Hlog.
    destruct (IH c1 q Hq Hmax Hsize) as (c' & Hrun & Hq' & Hsp').
    change (spillover c1) with (spillover c + 1) in Hsp'.
    exists c'. cbn [log_calls]. unfold bind, log_call.
    rewrite Hlog, Hrun. repeat split; auto.
    rewrite Hsp'. cbn [Datatypes.length]. lia.
Qed.

End LogSequences.

(* ================================================================== *)
(** ** The claims about [log] *)

Section LogClaims.

Context `{Collaborators}.

Local Open Scope Z_scope.

(** C1, as amended.  On a client whose queue has the module's capacity
    and whose spillover counter is positive: a [log] call that finds at
    least two free slots enqueues its record, then exactly one spillover
    notice that carries the counter, and resets the counter to 0; a
    [log] call that finds exactly one free slot, as after one slot was
    drained from a full queue, enqueues its record alone and leaves the
    counter as it was, for a later call. *)
Theorem spillover_notice_needs_two_slots objects path lineno now c q :
  log_queue c = Some q -> maxsize q = LOG_QUEUE_MAXSIZE ->
  0 < spillover c ->
  (qsize q + 2 <= LOG_QUEUE_MAXSIZE ->
   exists c',
     log objects path lineno now c = (Return tt, c')
     /\ queue_items c'
        = items q ++ [Message (log_record objects path lineno now c);
                      Message (spillover_notice (spillover c))]
     /\ spillover c' = 0)
  /\ (qsize q + 1 = LOG_QUEUE_MAXSIZE ->
      exists c',
        log objects path lineno now c = (Return tt, c')
        /\ queue_items c'
           = items q ++ [Message (log_record objects path lineno now c)]
        /\ spillover c' = spillover c).
Proof.
  intros Hq Hmax Hpos. split; intro Hroom.
  - eexists. split.
    + apply log_enqueues_notice with (q := q); auto. lia.
    + split; [|reflexivity].
      unfold queue_items. cbn. now rewrite <- app_assoc.
  - eexists. split.
    + apply log_enqueues_record with (q := q); auto.
      * rewrite full_at_capacity by assumption. apply Z.leb_gt. lia.
      * apply andb_false_iff. right. apply Z.ltb_ge. lia.
    + split; reflexivity.
Qed.

(** C2.  From a queue of the module's capacity that is empty and a
    counter at 0, [capacity + K] calls of [log] with no turn of the
    sender all return, leave the counter at [K] and the queue at
    capacity; and a call adds one to the counter exactly when it finds
    the queue full. *)
Theorem spillover_counts_overflow (calls : list LogCall) (K : Z) c q :
  log_queue c = Some q -> maxsize q = LOG_QUEUE_MAXSIZE -> items q = [] ->
  spillover c = 0 ->
  0 < K -> Z.of_nat (List.length calls) = LOG_QUEUE_MAXSIZE + K ->
  (exists c' q',
     log_calls calls c = (Return tt, c')
     /\ spillover c' = K
     /\ log_queue c' = Some q' /\ qsize q' = LOG_QUEUE_MAXSIZE)
  /\ (forall call c1 q1,
        log_queue c1 = Some q1 -> maxsize q1 = LOG_QUEUE_MAXSIZE ->
        (spillover (snd (log_call call c1)) = spillover c1 + 1
         <-> full q1 = true)).
Proof.
  intros Hq Hmax Hempty Hsp HK Hlen. split.
  - set (n := Z.to_nat LOG_QUEUE_MAXSIZE).
    assert (Hn : Z.of_nat n = LOG_QUEUE_MAXSIZE) by reflexivity.
    rewrite <- (firstn_skipn n calls), log_calls_app.
    assert (Hfirst : List.length (firstn n calls) = n).
    { rewrite length_firstn. lia. }
    assert (Hrest : Z.of_nat (List.length (skipn n calls)) = K).
    { rewrite length_skipn. lia. }
    assert (Hq0 : qsize q = 0) by (unfold qsize; now rewrite Hempty).
    destruct (log_calls_fill (firstn n calls) c Hq Hmax Hsp)
      as (c1 & q1 & Hrun1 & Hq1 & Hmax1 & Hsize1 & Hsp1); [lia|].
    rewrite Hrun1.
    destruct (log_calls_drop (skipn n calls) c1 Hq1 Hmax1)
      as (c2 & Hrun2 & Hq2 & Hsp2); [lia|].
    exists c2, q1. repeat split; auto; lia.
  - intros call c1 q1 Hq1 Hmax1. unfold log_call.
    destruct (full q1) eqn:Hfull.
    + rewrite (log_on_full_queue _ _ _ _ c1 Hq1 Hfull). cbn. tauto.
    + destruct ((0 <? spillover c1) && (qsize q1 + 1 <? LOG_QUEUE_MAXSIZE))
        eqn:Hguard.
      * apply andb_true_iff in Hguard. destruct Hguard as [Hpos Hroom].
        apply Z.ltb_lt in Hpos. apply Z.ltb_lt in Hroom.
        rewrite (log_enqueues_notice _ _ _ _ c1 Hq1 Hmax1 Hpos Hroom). cbn.
        split; [lia|discriminate].
      * rewrite (log_enqueues_record _ _ _ _ c1 Hq1 Hfull Hguard). cbn.
        split; [lia|discriminate].
Qed.


End LogClaims.

(** *** [log] with the exceptions of the calls before its [try] *)

Section LogWithExceptions.

Context `{Exceptions}.

Local Open Scope string_scope.
Local Open Scope Z_scope.






End LogWithExceptions.

(** *** The claims about [log] on closed examples *)

Import Examples.

(** C1: on [saturated] the sender takes one record, [log] is called
    once more: its record fills the slot, no notice is enqueued and the
    counter is still 1. *)
Lemma no_notice_after_one_slot : ~ notice_after_one_slot saturated hello.
Proof.
  unfold notice_after_one_slot. intro Hclaim.
  assert (Hconnected : connected saturated).
  { unfold connected. repeat split; try (vm_compute; reflexivity);
      eexists; split; vm_compute; reflexivity. }
  assert (Hsize : queue_size saturated = LOG_QUEUE_MAXSIZE)
    by (vm_compute; reflexivity).
  assert (Hpos : 0 < spillover saturated) by (vm_compute; reflexivity).
  destruct (Hclaim Hconnected Hsize Hpos) as [_ Hreset].
  vm_compute in Hreset. discriminate Hreset.
Qed.

Lemma notice_after_two_slots :
  exists c',
    log_call hello two_slots_free = (Return tt, c')
    /\ spillover two_slots_free = 1 /\ spillover c' = 0
    /\ queue_size two_slots_free = 510 /\ queue_size c' = 512.
Proof.
  destruct (spillover_notice_needs_two_slots
              (call_objects hello) (call_path hello) (call_lineno hello)
              (call_now hello) two_slots_free
              (q := queue_of two_slots_free))
    as [Htwo _].
  1-3: vm_compute; reflexivity.
  destruct Htwo as (c' & Hlog & Hitems & Hreset);
    [vm_compute; discriminate|].
  exists c'. split; [exact Hlog|]. split; [vm_compute; reflexivity|].
  split; [exact Hreset|]. split; [vm_compute; reflexivity|].
  unfold queue_size. rewrite Hitems, length_app. vm_compute. reflexivity.
Defined.

Lemma one_overflow_counted :
  exists c' q',
    log_calls (repeat hello 513) fresh = (Return tt, c')
    /\ spillover c' = 1
    /\ log_queue c' = Some q' /\ qsize q' = LOG_QUEUE_MAXSIZE.
Proof.
  destruct (spillover_counts_overflow
              (repeat hello 513) (K := 1) fresh
              (q := Queue.new Item LOG_QUEUE_MAXSIZE)) as [Hrun _];
    try reflexivity.
  exact Hrun.
Defined.





(** Once the listener has stored a width that is no number, every
    [log] raises: the console is printed on before anything else. *)
Lemma log_after_text_width_raises :
  fst (WithExceptions.log_call (H0 := PlainText.exceptions) hello
         (run_update_console_task
            [text_width] fresh))
  = Raise TypeError.
Proof. vm_compute. reflexivity. Qed.

(* ================================================================== *)
(** ** The sender task *)

Section SenderFacts.

Context `{Collaborators}.

Local Open Scope Z_scope.

(** On an open socket the sender writes the records at the head of the
    queue in their order, then goes on with what follows them. *)
Lemma send_queued_logs_prefix (records : list string) :
  forall (tail : list Item) (q : Queue Item) (ws : ClientWebSocketResponse),
    ws_closed ws = false ->
    items q = map Message records ++ tail ->
    send_queued_logs (items q) q ws
    = send_queued_logs tail
        {| maxsize := maxsize q;
           items := tail;
           unfinished_tasks :=
             unfinished_tasks q - Z.of_nat (List.length records) |}
        {| ws_closed := false; ws_sent := ws_sent ws ++ records |}.
Proof.
  induction records as [|r rs IH]; intros tail q ws Hopen Hitems.
  - destruct q as [m its u], ws as [closed sent]. cbn in *. subst.
    now rewrite Z.sub_0_r, app_nil_r.
  - destruct q as [m its u], ws as [closed sent]. cbn in Hopen, Hitems.
    subst closed its. cbn [items send_queued_logs].
    unfold send_next, get, send_str, task_done. cbn.
    pose proof (IH tail
                  {| maxsize := m; items := map Message rs ++ tail;
                     unfinished_tasks := u - 1 |}
                  {| ws_closed := false; ws_sent := sent ++ [r] |}
                  eq_refl eq_refl) as Hrest.
    cbn [items maxsize unfinished_tasks ws_sent] in Hrest. rewrite Hrest.
    rewrite <- app_assoc. cbn.
    replace (u - 1 - Z.of_nat (List.length rs))
      with (u - Z.pos (Pos.of_succ_nat (List.length rs))) by lia.
    reflexivity.
Qed.

(** The same on the client: the sender task gets control. *)
Lemma run_log_queue_task_prefix c q ws (records : list string) tail :
  log_queue_task c = Some Running ->
  log_queue c = Some q -> websocket c = Some ws -> ws_closed ws = false ->
  items q = map Message records ++ tail ->
  run_log_queue_task c
  = let '(state, q', ws') :=
      send_queued_logs tail
        {| maxsize := maxsize q;
           items := tail;
           unfinished_tasks :=
             unfinished_tasks q - Z.of_nat (List.length records) |}
        {| ws_closed := false; ws_sent := ws_sent ws ++ records |} in
    with_log_queue_task (Some state)
      (with_log_queue (Some q') (with_websocket (Some ws') c)).
Proof.
  intros Htask Hq Hws Hopen Hitems. unfold run_log_queue_task.
  rewrite Htask, Hq, Hws.
  now rewrite (send_queued_logs_prefix records tail q ws Hopen Hitems).
Qed.

(** A queue that holds records only is drained, and the sender waits. *)
Lemma run_log_queue_task_drains c q ws (records : list string) :
  log_queue_task c = Some Running ->
  log_queue c = Some q -> websocket c = Some ws -> ws_closed ws = false ->
  items q = map Message records ->
  run_log_queue_task c
  = with_log_queue_task (Some Running)
      (with_log_queue
         (Some {| maxsize := maxsize q;
                  items := [];
                  unfinished_tasks :=
                    unfinished_tasks q - Z.of_nat (List.length records) |})
         (with_websocket
            (Some {| ws_closed := false; ws_sent := ws_sent ws ++ records |})
            c)).
Proof.
  intros Htask Hq Hws Hopen Hitems.
  rewrite (run_log_queue_task_prefix c records []
             Htask Hq Hws Hopen); [reflexivity|].
  now rewrite app_nil_r.
Qed.

(** Up to the sentinel the records are written; the sentinel is taken
    off the queue, nothing is written for it, and the task is done. *)
Lemma run_log_queue_task_until_sentinel c q ws (records : list string) later :
  log_queue_task c = Some Running ->
  log_queue c = Some q -> websocket c = Some ws -> ws_closed ws = false ->
  items q = map Message records ++ ClientShutdown :: later ->
  run_log_queue_task c
  = with_log_queue_task (Some Finished)
      (with_log_queue
         (Some {| maxsize := maxsize q;
                  items := later;
                  unfinished_tasks :=
                    unfinished_tasks q - Z.of_nat (List.length records) - 1 |})
         (with_websocket
            (Some {| ws_closed := false; ws_sent := ws_sent ws ++ records |})
            c)).
Proof.
  intros Htask Hq Hws Hopen Hitems.
  now rewrite (run_log_queue_task_prefix c records
                 (ClientShutdown :: later) Htask Hq Hws Hopen Hitems).
Qed.

End SenderFacts.

(* ================================================================== *)
(** ** Records in, records out *)

Section Fifo.

Context `{Collaborators}.

Local Open Scope Z_scope.

(** With an empty record buffer, printing and exporting leaves the
    console as it was. *)
Lemma printed_unchanged objects c :
  record_buffer (console c) = [] -> printed objects c = c.
Proof.
  destruct c as [u s t1 t2 [w h buffer] ws lq sp]. cbn. intros ->.
  reflexivity.
Qed.

(** While there is room and nothing was discarded, the queue grows by
    the records of the calls, in the order of the calls. *)
Lemma log_calls_records (calls : list LogCall) :
  forall c q,
    log_queue c = Some q -> maxsize q = LOG_QUEUE_MAXSIZE ->
    spillover c = 0 -> record_buffer (console c) = [] ->
    qsize q + Z.of_nat (List.length calls) <= LOG_QUEUE_MAXSIZE ->
    exists q',
      log_calls calls c = (Return tt, with_log_queue (Some q') c)
      /\ maxsize q' = maxsize q
      /\ items q'
         = items q ++ map (fun call => Message (call_record call c)) calls.
Proof.
  induction calls as [|call calls IH]; intros c q Hq Hmax Hsp Hbuffer Hroom.
  - exists q. cbn. rewrite app_nil_r. repeat split.
    destruct c; cbn in *; now subst.
  - cbn [Datatypes.length] in Hroom.
    assert (Hfull : full q = false).
    { rewrite full_at_capacity by assumption. apply Z.leb_gt. lia. }
    pose proof (log_enqueues_record (call_objects call) (call_path call)
                  (call_lineno call) (call_now call) c Hq Hfull) as Hlog.
    rewrite Hsp in Hlog. specialize (Hlog eq_refl).
    rewrite (printed_unchanged _ c Hbuffer) in Hlog.
    set (q1 := enqueue _ q) in Hlog.
    destruct (IH (with_log_queue (Some q1) c) q1 eq_refl Hmax Hsp Hbuffer)
      as (q' & Hrun & Hmax' & Hitems).
    { subst q1. rewrite qsize_enqueue. lia. }
    exists q'. cbn [log_calls]. unfold bind, log_call.
    rewrite Hlog, Hrun. repeat split; [exact Hmax'|].
    rewrite Hitems. subst q1. cbn. rewrite <- app_assoc. reflexivity.
Qed.


End Fifo.

(* ================================================================== *)
(** ** [disconnect] *)

Section Shutdown.

Context `{Collaborators}.

Local Open Scope Z_scope.

Lemma empty_queue_has_room (m u : Z) :
  full {| maxsize := m; items := @nil Item; unfinished_tasks := u |} = false.
Proof.
  unfold full, qsize. cbn. destruct (m <=? 0); reflexivity.
Qed.

(** Phase 1 on a running sender and an open socket: the sentinel is
    enqueued behind the records, the sender writes the records and ends
    on the sentinel. *)
Lemma stop_log_queue_processing_drains c q ws (records : list string) :
  log_queue c = Some q -> items q = map Message records ->
  websocket c = Some ws -> ws_closed ws = false ->
  log_queue_task c = Some Running ->
  exists q',
    _stop_log_queue_processing c
    = (Return tt,
       with_log_queue_task (Some Finished)
         (with_log_queue (Some q')
            (with_websocket
               (Some {| ws_closed := false;
                        ws_sent := ws_sent ws ++ records |})
               c)))
    /\ items q' = [].
Proof.
  intros Hq Hitems Hws Hopen Htask.
  unfold _stop_log_queue_processing, bind, read. rewrite Hq.
  unfold log_queue_put. rewrite Hq. destruct (full q) eqn:Hfull.
  - (* the caller waits for room: the sender drains the queue *)
    rewrite (run_log_queue_task_drains c records Htask Hq Hws Hopen Hitems).
    cbn [log_queue with_log_queue_task with_log_queue with_websocket].
    rewrite empty_queue_has_room.
    cbn [log_queue_task with_log_queue_task with_log_queue with_websocket].
    unfold await_log_queue_task.
    match goal with
    | |- context [run_log_queue_task ?c2] =>
        rewrite (run_log_queue_task_until_sentinel
                   c2 [] [] (ws := {| ws_closed := false;
                                      ws_sent := ws_sent ws ++ records |})
                   eq_refl eq_refl eq_refl eq_refl eq_refl)
    end.
    cbn. rewrite app_nil_r. eexists. split; reflexivity.
  - cbn [log_queue_task with_log_queue]. rewrite Htask.
    unfold await_log_queue_task.
    match goal with
    | |- context [run_log_queue_task ?c2] =>
        rewrite (run_log_queue_task_until_sentinel
                   c2 records [] (q := enqueue ClientShutdown q) (ws := ws))
    end; auto.
    + cbn. eexists. split; reflexivity.
    + cbn. now rewrite Hitems.
Qed.

(** Phase 2 leaves the client disconnected whenever it returns. *)
Lemma stop_incoming_disconnects c c' :
  _stop_incoming_message_processing c = (Return tt, c') ->
  is_connected c' = false.
Proof.
  destruct c as [u s t1 t2 con ws lq sp].
  unfold _stop_incoming_message_processing, bind, read, assign, ret,
    await_update_console_task, run_update_console_task, is_connected.
  destruct ws as [[closed sent]|], t2 as [[| |e]|], s as [[sc]|];
    cbn; intro Hrun; inversion Hrun; reflexivity.
Qed.

Lemma disconnect_disconnects c c' :
  disconnect c = (Return tt, c') -> is_connected c' = false.
Proof.
  unfold disconnect, bind.
  destruct (_stop_log_queue_processing c) as [[[]| |] c1]; try discriminate.
  apply stop_incoming_disconnects.
Qed.

(** On a connected client whose queue holds records only, [disconnect]
    returns, with both tasks done and all records written. *)
Lemma disconnect_returns c q (records : list string) :
  connected c -> log_queue c = Some q -> items q = map Message records ->
  exists c',
    disconnect c = (Return tt, c')
    /\ log_queue_task c' = Some Finished
    /\ update_console_task c' = Some Finished
    /\ sent_frames c' = sent_frames c ++ records.
Proof.
  intros (_ & (ws & Hws & Hopen) & _ & Htask & Hlistener) Hq Hitems.
  destruct (stop_log_queue_processing_drains c records Hq Hitems Hws Hopen Htask)
    as (q' & Hstop & _).
  unfold disconnect, bind. rewrite Hstop. clear Hstop.
  destruct c as [u s t1 t2 con wso lq sp].
  cbn in Hws, Htask, Hlistener, Hq. subst.
  unfold _stop_incoming_message_processing, bind, read, assign, ret,
    await_update_console_task, run_update_console_task, sent_frames.
  destruct s; cbn; eexists; repeat split; reflexivity.
Qed.

(** C5.  With the sender running and the socket open, phase 1 of
    [disconnect] returns once the sender has written every record that
    was on the queue before the sentinel, in order, and has ended; the
    turn of the sender that takes the sentinel ends the task and writes
    nothing. *)
Theorem sentinel_ends_sender_after_records c q ws (records : list string) :
  log_queue c = Some q -> items q = map Message records ->
  websocket c = Some ws -> ws_closed ws = false ->
  log_queue_task c = Some Running ->
  (exists c',
     _stop_log_queue_processing c = (Return tt, c')
     /\ log_queue_task c' = Some Finished
     /\ sent_frames c' = ws_sent ws ++ records
     /\ queue_items c' = [])
  /\ (forall q0 ws0 later,
        items q0 = ClientShutdown :: later ->
        exists q1,
          send_next q0 ws0 = (Finished, q1, ws0) /\ items q1 = later).
Proof.
  intros Hq Hitems Hws Hopen Htask. split.
  - destruct (stop_log_queue_processing_drains
                c records Hq Hitems Hws Hopen Htask) as (q' & Hstop & Hempty).
    eexists. split; [exact Hstop|]. repeat split. exact Hempty.
  - intros [m its u] ws0 later Hhead. cbn in Hhead. subst its.
    eexists. split; reflexivity.
Qed.

(** C9.  [is_connected] holds exactly when the client has a session and
    a socket and neither reports closed.  It is false on a client just
    made, false after any [disconnect] that returns (and on a connected
    client whose queue holds records [disconnect] does return), false
    once the socket reports closed, and false once the listener has
    read a closing message from the server. *)
Theorem is_connected_iff_open c :
  (is_connected c = true <->
   exists s ws,
     session c = Some s /\ websocket c = Some ws
     /\ session_closed s = false /\ ws_closed ws = false)
  /\ (forall host port, is_connected (__init__ host port) = false)
  /\ (forall c', disconnect c = (Return tt, c') -> is_connected c' = false)
  /\ (forall q (records : list string),
        connected c -> log_queue c = Some q -> items q = map Message records ->
        exists c', disconnect c = (Return tt, c') /\ is_connected c' = false)
  /\ (forall ws,
        websocket c = Some ws -> ws_closed ws = true -> is_connected c = false)
  /\ (forall message later,
        connected c -> ends_iteration (msg_type message) = true ->
        is_connected (run_update_console_task (message :: later) c) = false).
Proof.
  repeat split.
  - unfold is_connected. intro Hopen.
    destruct (session c) as [s|], (websocket c) as [ws|]; try discriminate.
    exists s, ws. apply negb_true_iff, orb_false_iff in Hopen.
    now destruct Hopen.
  - intros (s & ws & Hs & Hws & Hsopen & Hwsopen). unfold is_connected.
    now rewrite Hs, Hws, Hsopen, Hwsopen.
  - apply disconnect_disconnects.
  - intros q records Hc Hq Hitems.
    destruct (disconnect_returns records Hc Hq Hitems) as (c' & Hrun & _).
    exists c'. split; [exact Hrun|]. now apply disconnect_disconnects with c.
  - intros ws Hws Hclosed. unfold is_connected. rewrite Hws, Hclosed.
    destruct (session c); [apply negb_false_iff, orb_true_r|reflexivity].
  - intros message later (_ & (ws & Hws & Hopen) & _ & _ & Hlistener) Hends.
    unfold run_update_console_task. rewrite Hlistener, Hws, Hopen.
    cbn [update_console]. rewrite Hends.
    unfold is_connected. cbn.
    destruct (session c); [apply negb_false_iff, orb_true_r|reflexivity].
Qed.

End Shutdown.

(* ================================================================== *)
(** ** [connect] and the listener task *)

Section ConnectAndListen.

Context `{Collaborators}.

Local Open Scope Z_scope.
Local Open Scope string_scope.

(** C6, as amended.  When the handshake raises [ClientConnectorError]
    or [ClientResponseError], [connect] raises
    [DevtoolsConnectionError]; the socket and both tasks are as they
    were, so a client just made is not connected; the session and the
    empty log queue that [connect] assigned before the handshake stay
    on the client. *)
Theorem failed_connect_keeps_session_and_queue c e :
  is_connect_failure e = true ->
  exists c',
    connect (Raise e) c = (Raise DevtoolsConnectionError, c')
    /\ websocket c' = websocket c
    /\ log_queue_task c' = log_queue_task c
    /\ update_console_task c' = update_console_task c
    /\ session c' = Some {| session_closed := false |}
    /\ log_queue c' = Some (Queue.new Item LOG_QUEUE_MAXSIZE)
    /\ (websocket c = None -> is_connected c' = false).
Proof.
  intro Hcaught.
  exists (with_log_queue (Some (Queue.new Item LOG_QUEUE_MAXSIZE))
            (with_session (Some {| session_closed := false |}) c)).
  split.
  - unfold connect, bind, assign, try_except, await, raise. cbn.
    now rewrite Hcaught.
  - repeat split. intro Hnone. unfold is_connected. cbn. now rewrite Hnone.
Qed.

(** A message that does not end the iteration reaches the body of the
    loop; the loop goes on when the body returns and ends when it
    raises. *)
Lemma update_console_step message later con :
  ends_iteration (msg_type message) = false ->
  update_console (message :: later) con
  = match on_message message con with
    | (inr _, con') => update_console later con'
    | (inl e, con') => (Failed e, con')
    end.
Proof.
  intro Hgoes. cbn [update_console]. now rewrite Hgoes.
Qed.

(** C7, as amended.  For a message that reaches the body of the loop:
    a text frame that decodes to an object of type ["server_info"]
    whose payload has a width and a height sets both on the console; a
    frame that is not text, and a text frame that decodes to an object
    of another type, leave the console as it is; in these cases the
    listener goes on.  A text frame that does not decode, or whose
    document has no ["type"], is not ignored: the exception ends the
    listener task. *)
Theorem listener_message_cases message later con :
  ends_iteration (msg_type message) = false ->
  (forall doc type payload w h,
     msg_type message = TEXT ->
     json_loads (msg_data message) = inr doc ->
     getitem doc "type" = inr type -> eq_str type "server_info" = true ->
     getitem doc "payload" = inr payload ->
     getitem payload "width" = inr w -> getitem payload "height" = inr h ->
     update_console (message :: later) con
     = update_console later (set_height h (set_width w con)))
  /\ (msg_type message <> TEXT ->
      update_console (message :: later) con = update_console later con)
  /\ (forall doc type,
        msg_type message = TEXT ->
        json_loads (msg_data message) = inr doc ->
        getitem doc "type" = inr type -> eq_str type "server_info" = false ->
        update_console (message :: later) con = update_console later con)
  /\ (forall e,
        msg_type message = TEXT ->
        json_loads (msg_data message) = inl e ->
        update_console (message :: later) con = (Failed e, con))
  /\ (forall doc e,
        msg_type message = TEXT ->
        json_loads (msg_data message) = inr doc ->
        getitem doc "type" = inl e ->
        update_console (message :: later) con = (Failed e, con)).
Proof.
  intro Hgoes. rewrite (update_console_step message later con Hgoes).
  unfold on_message. repeat split.
  - intros doc type payload w h Htext Hdoc Htype Hinfo Hpayload Hw Hh.
    now rewrite Htext, Hdoc, Htype, Hinfo, Hpayload, Hw, Hh.
  - intro Hother. destruct (msg_type message); try reflexivity.
    now contradiction Hother.
  - intros doc type Htext Hdoc Htype Hinfo.
    now rewrite Htext, Hdoc, Htype, Hinfo.
  - intros e Htext Hdoc. now rewrite Htext, Hdoc.
  - intros doc e Htext Hdoc Htype. now rewrite Htext, Hdoc, Htype.
Qed.

(** C8.  Given that [pickle.loads] reads back what [pickle.dumps]
    wrote, decoding what [_encode_segments] produced (base64-decode,
    then unpickle) gives back the list of segments, the empty list
    included. *)
Theorem encode_segments_reversible :
  (forall segments, pickle_loads (pickle_dumps segments) = Some segments) ->
  forall segments,
    decode_segments (_encode_segments segments) = Some segments.
Proof.
  intros Hpickle segments. unfold decode_segments, _encode_segments.
  rewrite list_byte_of_string_of_list_byte.
  rewrite Base64Facts.b64decode_b64encode.
  apply Hpickle.
Qed.

(** The text that [_encode_segments] returns is ASCII: converting the
    base64 bytes to [str] loses nothing. *)
Lemma encode_segments_ascii segments :
  Forall (fun b => (Byte.to_N b < 128)%N)
         (list_byte_of_string (_encode_segments segments)).
Proof.
  unfold _encode_segments. rewrite list_byte_of_string_of_list_byte.
  apply Base64Facts.b64encode_ascii.
Qed.

End ConnectAndListen.

(** *** The example serializer reads back what it wrote *)

Lemma loads_from_dump_text (text : list byte) :
  forall seen rest,
    PlainText.loads_from seen (PlainText.dump_text text ++ rest)
    = match PlainText.loads_from [] rest with
      | Some segments =>
          Some (string_of_list_byte (rev seen ++ text) :: segments)
      | None => None
      end.
Proof.
  induction text as [|b text IH]; intros seen rest.
  - cbn. now rewrite app_nil_r.
  - cbn [PlainText.dump_text app PlainText.loads_from].
    rewrite IH. cbn [rev]. now rewrite <- app_assoc.
Qed.

Lemma plain_loads_dumps (segments : list string) :
  PlainText.loads (PlainText.dumps segments) = Some segments.
Proof.
  unfold PlainText.loads, PlainText.dumps.
  induction segments as [|s segments IH]; [reflexivity|].
  cbn [flat_map]. rewrite loads_from_dump_text, IH. cbn [rev app].
  now rewrite string_of_list_byte_of_string.
Qed.

(** *** The other claims on closed examples *)

Import PlainText.

Local Open Scope string_scope.
Local Open Scope Z_scope.


Lemma two_records_sent_before_shutdown :
  exists c',
    _stop_log_queue_processing (snd (log_calls [hello; hello] fresh))
    = (Return tt, c')
    /\ log_queue_task c' = Some Finished
    /\ sent_frames c' = [call_record hello fresh; call_record hello fresh]
    /\ queue_items c' = [].
Proof.
  destruct (sentinel_ends_sender_after_records
              (snd (log_calls [hello; hello] fresh))
              (q := queue_of (snd (log_calls [hello; hello] fresh)))
              (ws := {| ws_closed := false; ws_sent := [] |})
              [call_record hello fresh; call_record hello fresh])
    as [Hstop _]; [vm_compute; reflexivity .. | ].
  exact Hstop.
Defined.

(** C6: on a client just made, a refused connection leaves a session
    and a queue behind. *)
Lemma refused_connect_leaves_session :
  ~ failed_connect_leaves_nothing unconnected ClientConnectorError.
Proof.
  unfold failed_connect_leaves_nothing. intro Hsame.
  apply (f_equal (fun result => session (snd result))) in Hsame.
  vm_compute in Hsame. discriminate Hsame.
Qed.

Lemma refused_connect_raises :
  exists c',
    connect (Raise ClientConnectorError) unconnected
    = (Raise DevtoolsConnectionError, c')
    /\ session c' = Some {| session_closed := false |}
    /\ log_queue c' = Some (Queue.new Item LOG_QUEUE_MAXSIZE)
    /\ is_connected c' = false.
Proof.
  destruct (failed_connect_keeps_session_and_queue
              unconnected ClientConnectorError eq_refl)
    as (c' & Hraise & _ & _ & _ & Hsession & Hqueue & Hoff).
  exists c'. repeat split; auto.
Defined.

(** C7: a text frame that is no JSON document is not ignored and not
    applied: [json.loads] raises in the body of the loop. *)
Lemma not_json_not_tolerated : ~ message_tolerated not_json new_console.
Proof.
  unfold message_tolerated. intros [Hignored | (w & h & Happlied)].
  - apply (f_equal fst) in Hignored. vm_compute in Hignored.
    discriminate Hignored.
  - apply (f_equal fst) in Happlied. vm_compute in Happlied.
    discriminate Happlied.
Qed.

(** The listener ends on that frame; a later update is never read. *)
Example not_json_ends_listener :
  update_console [not_json; server_info 100 40] new_console
  = (Failed JSONDecodeError, new_console).
Proof. reflexivity. Qed.

Lemma server_info_then_unknown :
  update_console
    [server_info 100 40;
     text_frame (json_dumps (JDict [("type", JStr "unknown");
                                    ("payload", JDict [])]))]
    new_console
  = (Running, set_height (JInt 40) (set_width (JInt 100) new_console)).
Proof.
  destruct (listener_message_cases
              (server_info 100 40)
              [text_frame (json_dumps (JDict [("type", JStr "unknown");
                                              ("payload", JDict [])]))]
              new_console eq_refl) as (Hinfo & _).
  rewrite (Hinfo (JDict [("type", JStr "server_info");
                         ("payload", JDict [("width", JInt 100);
                                            ("height", JInt 40)])])
                 (JStr "server_info")
                 (JDict [("width", JInt 100); ("height", JInt 40)])
                 (JInt 100) (JInt 40)
                 eq_refl eq_refl eq_refl eq_refl eq_refl eq_refl eq_refl).
  reflexivity.
Defined.

Lemma plain_segments_round_trip :
  decode_segments (_encode_segments ["hello"; "w"]) = Some ["hello"; "w"]
  /\ decode_segments (_encode_segments []) = Some [].
Proof.
  split;
    apply (encode_segments_reversible (H := PlainText.collaborators)
             plain_loads_dumps).
Defined.

Lemma disconnect_after_two_logs :
  is_connected (snd (log_calls [hello; hello] fresh)) = true
  /\ exists c',
       disconnect (snd (log_calls [hello; hello] fresh)) = (Return tt, c')
       /\ is_connected c' = false.
Proof.
  split; [vm_compute; reflexivity|].
  destruct (is_connected_iff_open (snd (log_calls [hello; hello] fresh)))
    as (_ & _ & _ & Hreturns & _).
  apply (Hreturns (queue_of (snd (log_calls [hello; hello] fresh)))
                  [call_record hello fresh; call_record hello fresh]).
  - unfold connected. repeat split; try (vm_compute; reflexivity);
      eexists; split; vm_compute; reflexivity.
  - vm_compute. reflexivity.
  - vm_compute. reflexivity.
Defined.

(* ================================================================== *)
(** ** Further properties of the client *)

Section ClientInvariants.

Context `{Collaborators}.

Local Open Scope Z_scope.

(** What [log] leaves alone, and what it can do to the queue. *)
Lemma log_frame objects path lineno now c :
  exists c',
    log objects path lineno now c = (Return tt, c')
    /\ session c' = session c /\ websocket c' = websocket c
    /\ log_queue_task c' = log_queue_task c
    /\ update_console_task c' = update_console_task c
    /\ width (console c') = width (console c)
    /\ height (console c') = height (console c)
    /\ record_buffer (console c') = []
    /\ (log_queue c = None <-> log_queue c' = None).
Proof.
  destruct c as [u s t1 t2 con ws lq sp].
  unfold log, log_call, bind, assign, read, ret, try_except,
    log_queue_put_nowait, put_nowait. cbn.
  destruct lq as [q|]; cbn; [|eexists; repeat split; reflexivity].
  destruct (full q); cbn; [eexists; repeat split; try reflexivity; discriminate|].
  destruct ((0 <? sp) && _); cbn;
    [|eexists; repeat split; try reflexivity; discriminate].
  destruct (full _); cbn; eexists; repeat split; try reflexivity; discriminate.
Qed.

Lemma log_within_capacity objects path lineno now c :
  within_capacity c ->
  within_capacity (snd (log objects path lineno now c)).
Proof.
  intros (q & Hq & Hmax & Hsize). unfold within_capacity.
  destruct (full q) eqn:Hfull.
  - rewrite (log_on_full_queue _ _ _ _ c Hq Hfull). exists q. cbn. auto.
  - assert (Hroom : qsize q < LOG_QUEUE_MAXSIZE).
    { rewrite full_at_capacity in Hfull by assumption.
      now apply Z.leb_gt in Hfull. }
    destruct ((0 <? spillover c) && (qsize q + 1 <? LOG_QUEUE_MAXSIZE))
      eqn:Hguard.
    + apply andb_true_iff in Hguard. destruct Hguard as [Hpos Htwo].
      apply Z.ltb_lt in Hpos. apply Z.ltb_lt in Htwo.
      rewrite (log_enqueues_notice _ _ _ _ c Hq Hmax Hpos Htwo).
      eexists. cbn. split; [reflexivity|]. split; [exact Hmax|].
      rewrite !qsize_enqueue. lia.
    + rewrite (log_enqueues_record _ _ _ _ c Hq Hfull Hguard).
      eexists. cbn. split; [reflexivity|]. split; [exact Hmax|].
      rewrite qsize_enqueue. lia.
Qed.

Lemma send_next_shrinks q ws :
  let '(_, q', _) := send_next q ws in
  maxsize q' = maxsize q /\ qsize q' <= qsize q.
Proof.
  destruct q as [m its u]. unfold send_next, get, send_str, task_done, qsize.
  destruct its as [|[text|] rest]; cbn [items].
  - split; [reflexivity|lia].
  - destruct (ws_closed ws); cbn; split; try reflexivity; lia.
  - cbn. split; [reflexivity|lia].
Qed.

Lemma send_queued_logs_shrinks pending :
  forall q ws,
    let '(_, q', _) := send_queued_logs pending q ws in
    maxsize q' = maxsize q /\ qsize q' <= qsize q.
Proof.
  induction pending as [|item pending IH]; intros q ws.
  - cbn. split; [reflexivity|lia].
  - cbn [send_queued_logs].
    pose proof (send_next_shrinks q ws) as Hstep.
    destruct (send_next q ws) as [[[| |e] q1] ws1]; try exact Hstep.
    specialize (IH q1 ws1).
    destruct (send_queued_logs pending q1 ws1) as [[st q2] ws2].
    destruct Hstep as [Hm1 Hs1], IH as [Hm2 Hs2]. split; [congruence|lia].
Qed.

Lemma happen_within_capacity event c :
  within_capacity c -> within_capacity (happen event c).
Proof.
  intros Hc. destruct event as [call| | |inbound]; cbn [happen].
  - now apply log_within_capacity.
  - destruct Hc as (q & Hq & Hmax & Hsize). unfold sender_turn.
    destruct (log_queue_task c) as [[| |e]|]; try solve [exists q; auto].
    rewrite Hq. destruct (websocket c) as [ws|]; [|solve [exists q; auto]].
    pose proof (send_next_shrinks q ws) as Hstep.
    destruct (send_next q ws) as [[st q1] ws1]. destruct Hstep as [Hm Hs].
    exists q1. cbn. repeat split; [congruence|lia].
  - destruct Hc as (q & Hq & Hmax & Hsize). unfold run_log_queue_task.
    destruct (log_queue_task c) as [[| |e]|]; try solve [exists q; auto].
    rewrite Hq. destruct (websocket c) as [ws|]; [|solve [exists q; auto]].
    pose proof (send_queued_logs_shrinks (items q) q ws) as Hrun.
    destruct (send_queued_logs (items q) q ws) as [[st q1] ws1].
    destruct Hrun as [Hm Hs].
    exists q1. cbn. repeat split; [congruence|lia].
  - destruct Hc as (q & Hq & Hmax & Hsize). unfold run_update_console_task.
    destruct (update_console_task c) as [[| |e]|]; try solve [exists q; auto].
    destruct (websocket c) as [ws|]; [|solve [exists q; auto]].
    destruct (ws_closed ws); [solve [exists q; auto]|].
    destruct (update_console inbound (console c)) as [[| |e] con'];
      exists q; auto.
Qed.

(** The queue stays within its capacity whatever the caller, the
    sender and the listener do, in any order: [log] never lets the
    queue of a connected client grow beyond [LOG_QUEUE_MAXSIZE]. *)
Theorem queue_never_exceeds_capacity (events : list Event) c :
  within_capacity c ->
  exists q,
    log_queue (happen_all events c) = Some q
    /\ maxsize q = LOG_QUEUE_MAXSIZE
    /\ qsize q <= LOG_QUEUE_MAXSIZE.
Proof.
  revert c. induction events as [|event events IH]; intros c Hc.
  - exact Hc.
  - cbn [happen_all fold_left]. apply IH.
    now apply happen_within_capacity.
Qed.

End ClientInvariants.

Section ClientEdges.

Context `{Collaborators}.

Local Open Scope string_scope.
Local Open Scope Z_scope.

Lemma log_calls_frame (calls : list LogCall) :
  forall c,
  exists c',
    log_calls calls c = (Return tt, c')
    /\ session c' = session c /\ websocket c' = websocket c
    /\ log_queue_task c' = log_queue_task c
    /\ update_console_task c' = update_console_task c
    /\ (log_queue c = None <-> log_queue c' = None).
Proof.
  induction calls as [|call calls IH]; intro c.
  - exists c. repeat split; auto.
  - destruct (log_frame (call_objects call) (call_path call)
                (call_lineno call) (call_now call) c)
      as (c1 & Hlog & Hs & Hws & Ht1 & Ht2 & _ & _ & _ & Hq).
    destruct (IH c1) as (c' & Hrun & Hs' & Hws' & Ht1' & Ht2' & Hq').
    exists c'. cbn [log_calls]. unfold bind, log_call. rewrite Hlog, Hrun.
    repeat split; try congruence; tauto.
Qed.

Lemma log_spillover objects path lineno now c :
  exists c',
    log objects path lineno now c = (Return tt, c')
    /\ (spillover c' = spillover c
        \/ spillover c' = spillover c + 1
        \/ 0 < spillover c /\ spillover c' = 0).
Proof.
  destruct c as [u s t1 t2 con ws lq sp].
  unfold log, log_call, bind, assign, read, ret, try_except,
    log_queue_put_nowait, put_nowait. cbn.
  destruct lq as [q|]; cbn; [|eexists; split; [reflexivity|now left]].
  destruct (full q); cbn; [eexists; split; [reflexivity|now right; left]|].
  destruct (0 <? sp) eqn:Hpos; cbn; [|eexists; split; [reflexivity|now left]].
  apply Z.ltb_lt in Hpos.
  destruct (_ <? LOG_QUEUE_MAXSIZE); cbn;
    [|eexists; split; [reflexivity|now left]].
  destruct (full _); cbn; eexists; (split; [reflexivity|]); cbn; auto.
Qed.

(** The spillover counter is touched by [log] alone, which adds one to
    it or resets it to 0 from a positive value; so it never becomes
    negative, whatever the caller and the tasks do. *)
Theorem spillover_moves_by_log_only (events : list Event) c :
  (forall event,
     spillover (happen event c) = spillover c
     \/ (exists call, event = Logs call)
        /\ (spillover (happen event c) = spillover c + 1
            \/ 0 < spillover c /\ spillover (happen event c) = 0))
  /\ (0 <= spillover c -> 0 <= spillover (happen_all events c)).
Proof.
  assert (Hstep : forall event c0,
             spillover (happen event c0) = spillover c0
             \/ (exists call, event = Logs call)
                /\ (spillover (happen event c0) = spillover c0 + 1
                    \/ 0 < spillover c0 /\ spillover (happen event c0) = 0)).
  { intros [call| | |inbound] c0; cbn [happen].
    - destruct (log_spillover (call_objects call) (call_path call)
                  (call_lineno call) (call_now call) c0)
        as (c1 & Hlog & Hcases).
      unfold log_call. rewrite Hlog. cbn [snd].
      destruct Hcases as [Hsame | Hmoved]; [now left|].
      right. split; [now exists call|exact Hmoved].
    - left. unfold sender_turn.
      destruct (log_queue_task c0) as [[| |e]|]; try reflexivity.
      destruct (log_queue c0) as [q|]; try reflexivity.
      destruct (websocket c0) as [ws|]; try reflexivity.
      now destruct (send_next q ws) as [[st q1] ws1].
    - left. unfold run_log_queue_task.
      destruct (log_queue_task c0) as [[| |e]|]; try reflexivity.
      destruct (log_queue c0) as [q|]; try reflexivity.
      destruct (websocket c0) as [ws|]; try reflexivity.
      now destruct (send_queued_logs (items q) q ws) as [[st q1] ws1].
    - left. unfold run_update_console_task.
      destruct (update_console_task c0) as [[| |e]|]; try reflexivity.
      destruct (websocket c0) as [ws|]; try reflexivity.
      destruct (ws_closed ws); try reflexivity.
      now destruct (update_console inbound (console c0)) as [[| |e] con']. }
  split; [intro event; apply Hstep|].
  revert c. induction events as [|event events IH]; intros c Hpos.
  - exact Hpos.
  - cbn [happen_all fold_left]. apply IH.
    destruct (Hstep event c) as [Hsame | [_ [Hup | [_ Hreset]]]]; lia.
Qed.

(** A successful [connect] leaves the client connected on the socket
    it was given, with an empty queue of the module's capacity and both
    tasks scheduled.  The spillover counter and the console are not
    reset. *)
Theorem connect_establishes_session c ws :
  ws_closed ws = false ->
  exists c',
    connect (Return ws) c = (Return tt, c')
    /\ connected c' /\ is_connected c' = true
    /\ websocket c' = Some ws
    /\ log_queue c' = Some (Queue.new Item LOG_QUEUE_MAXSIZE)
    /\ spillover c' = spillover c /\ console c' = console c.
Proof.
  intro Hopen. eexists. split; [reflexivity|].
  split; [|split].
  - unfold connected. cbn. repeat split; eauto.
  - unfold is_connected. cbn. now rewrite Hopen.
  - repeat split.
Qed.

(** An exception of the handshake that is neither of the two caught
    classes leaves [connect] as it is, not as
    [DevtoolsConnectionError]; and a handshake that never completes
    leaves the caller suspended.  Either way the new session and the
    new empty queue were already assigned, the socket is as it was and
    no task was started. *)
Theorem connect_passes_other_failures c e :
  is_connect_failure e = false ->
  (exists c',
     connect (Raise e) c = (Raise e, c')
     /\ session c' = Some {| session_closed := false |}
     /\ log_queue c' = Some (Queue.new Item LOG_QUEUE_MAXSIZE)
     /\ websocket c' = websocket c
     /\ log_queue_task c' = log_queue_task c
     /\ update_console_task c' = update_console_task c)
  /\ (exists c',
        connect Suspended c = (Suspended, c')
        /\ session c' = Some {| session_closed := false |}
        /\ log_queue c' = Some (Queue.new Item LOG_QUEUE_MAXSIZE)
        /\ websocket c' = websocket c
        /\ log_queue_task c' = log_queue_task c
        /\ update_console_task c' = update_console_task c).
Proof.
  intro Hother.
  destruct e; try discriminate Hother;
    (split; eexists; (split; [reflexivity|repeat split])).
Qed.

(** [disconnect] on a client that was never connected finds nothing to
    stop or close, returns, and leaves the client as it is. *)
Theorem disconnect_before_connect c :
  session c = None -> websocket c = None -> log_queue c = None ->
  log_queue_task c = None -> update_console_task c = None ->
  disconnect c = (Return tt, c).
Proof.
  intros Hs Hws Hq Ht1 Ht2.
  unfold disconnect, _stop_log_queue_processing,
    _stop_incoming_message_processing, bind, read, ret.
  now rewrite Hq, Ht1, Hws, Ht2, Hs.
Qed.

(** With the queue full and no sender task running, the [put] of the
    sentinel never finds room: [disconnect] stays suspended and nothing
    is closed. *)
Theorem disconnect_waits_forever c q :
  log_queue c = Some q -> full q = true ->
  log_queue_task c <> Some Running ->
  disconnect c = (Suspended, c).
Proof.
  intros Hq Hfull Hidle.
  assert (Hrun : run_log_queue_task c = c).
  { unfold run_log_queue_task.
    destruct (log_queue_task c) as [[| |e]|]; try reflexivity.
    now contradiction Hidle. }
  unfold disconnect, _stop_log_queue_processing, bind, read, log_queue_put.
  repeat (rewrite ?Hq, ?Hfull, ?Hrun; cbv beta iota).
  reflexivity.
Qed.

(** When the listener task ended by an exception, [disconnect] writes
    the queued records and closes the socket, then raises that
    exception from [await]: the session is never closed. *)
Theorem disconnect_raises_listener_failure c q ws (records : list string) e :
  log_queue c = Some q -> items q = map Message records ->
  websocket c = Some ws -> ws_closed ws = false ->
  log_queue_task c = Some Running ->
  update_console_task c = Some (Failed e) ->
  exists c',
    disconnect c = (Raise e, c')
    /\ session c' = session c
    /\ websocket c'
       = Some {| ws_closed := true; ws_sent := (ws_sent ws ++ records)%list |}
    /\ log_queue_task c' = Some Finished.
Proof.
  intros Hq Hitems Hws Hopen Htask Hfailed.
  destruct (stop_log_queue_processing_drains c records Hq Hitems Hws Hopen Htask)
    as (q' & Hstop & _).
  unfold disconnect, bind. rewrite Hstop. clear Hstop.
  destruct c as [u s t1 t2 con wso lq sp].
  cbn in Hws, Htask, Hfailed, Hq. subst.
  unfold _stop_incoming_message_processing, bind, read, assign, ret,
    await_update_console_task, run_update_console_task.
  cbn. eexists. repeat split.
Qed.

(** When the socket is closed the first write of the sender fails:
    [disconnect] raises the sender's exception from [await], the record
    is lost, and neither the socket nor the session is closed by
    [disconnect]. *)
Theorem disconnect_raises_sender_failure c q ws r rest :
  log_queue c = Some q -> maxsize q = LOG_QUEUE_MAXSIZE ->
  qsize q <= LOG_QUEUE_MAXSIZE -> items q = Message r :: rest ->
  websocket c = Some ws -> ws_closed ws = true ->
  log_queue_task c = Some Running ->
  exists c',
    disconnect c = (Raise ConnectionResetError, c')
    /\ log_queue_task c' = Some (Failed ConnectionResetError)
    /\ queue_items c' = (rest ++ [ClientShutdown])%list
    /\ websocket c' = Some ws /\ session c' = session c
    /\ update_console_task c' = update_console_task c.
Proof.
  intros Hq Hmax Hsize Hitems Hws Hclosed Htask.
  destruct c as [u s t1 t2 con wso lq sp], q as [m its n], ws as [closed sent].
  cbn in Hq, Hmax, Hitems, Hws, Hclosed, Htask. subst.
  unfold disconnect, _stop_log_queue_processing, bind, read, log_queue_put.
  cbn [log_queue].
  destruct (full _) eqn:Hfull.
  - unfold run_log_queue_task. cbn.
    unfold send_next, get, send_str. cbn.
    assert (Hroom : full {| maxsize := LOG_QUEUE_MAXSIZE; items := rest;
                            unfinished_tasks := n |} = false).
    { rewrite full_at_capacity by reflexivity. apply Z.leb_gt.
      unfold qsize in *. cbn in *. lia. }
    rewrite Hroom. cbn. unfold await_log_queue_task, run_log_queue_task. cbn.
    eexists. repeat split.
  - cbn. unfold await_log_queue_task, run_log_queue_task. cbn.
    unfold send_next, get, send_str. cbn.
    eexists. repeat split.
Qed.

(** [log] removes nothing from the queue; when there is room, its
    record is the first item it adds. *)
Lemma log_appends objects path lineno now c q :
  log_queue c = Some q ->
  exists c' q' added,
    log objects path lineno now c = (Return tt, c')
    /\ log_queue c' = Some q'
    /\ items q' = (items q ++ added)%list
    /\ (full q = false ->
        exists more,
          added = Message (log_record objects path lineno now c) :: more).
Proof.
  intro Hq. destruct (full q) eqn:Hfull.
  - rewrite (log_on_full_queue _ _ _ _ c Hq Hfull).
    exists (with_spillover (spillover c + 1) (printed objects c)), q, [].
    repeat split; [exact Hq|now rewrite app_nil_r|discriminate].
  - destruct ((0 <? spillover c) && (qsize q + 1 <? LOG_QUEUE_MAXSIZE))
      eqn:Hguard.
    + destruct c as [u s t1 t2 con ws lq sp]. cbn in Hq. subst lq.
      unfold log, log_call, bind, assign, read, ret, try_except,
        log_queue_put_nowait, put_nowait, log_record. cbn.
      rewrite Hfull. cbn. rewrite qsize_enqueue.
      cbn [spillover] in Hguard. rewrite Hguard.
      cbn. destruct (full (enqueue _ q)) eqn:Hfull2; cbn.
      * do 3 eexists. split; [reflexivity|]. split; [reflexivity|].
        split; [cbn; reflexivity|]. intros _. now eexists.
      * do 3 eexists. split; [reflexivity|]. split; [reflexivity|].
        split; [cbn; rewrite <- app_assoc; reflexivity|].
        intros _. now eexists.
    + rewrite (log_enqueues_record _ _ _ _ c Hq Hfull Hguard).
      do 3 eexists. repeat split. intros _. now exists [].
Qed.

Lemma log_calls_append (calls : list LogCall) :
  forall c q,
    log_queue c = Some q ->
    exists c' q' added,
      log_calls calls c = (Return tt, c')
      /\ log_queue c' = Some q' /\ items q' = (items q ++ added)%list.
Proof.
  induction calls as [|call calls IH]; intros c q Hq.
  - exists c, q, []. repeat split; [exact Hq|now rewrite app_nil_r].
  - destruct (log_appends (call_objects call) (call_path call)
                (call_lineno call) (call_now call) c Hq)
      as (c1 & q1 & a1 & Hlog & Hq1 & Hitems1 & _).
    destruct (IH c1 q1 Hq1) as (c' & q' & a2 & Hrun & Hq' & Hitems').
    exists c', q', (a1 ++ a2)%list. cbn [log_calls]. unfold bind, log_call.
    rewrite Hlog, Hrun. repeat split; [exact Hq'|].
    now rewrite Hitems', Hitems1, app_assoc.
Qed.

(** What a [disconnect] that returns leaves behind. *)
Lemma disconnect_leaves_empty_queue c q (records : list string) :
  connected c -> log_queue c = Some q -> items q = map Message records ->
  exists c1 q1,
    disconnect c = (Return tt, c1)
    /\ log_queue c1 = Some q1 /\ items q1 = []
    /\ console c1 = console c
    /\ spillover c1 = spillover c
    /\ log_queue_task c1 = Some Finished
    /\ sent_frames c1 = (sent_frames c ++ records)%list
    /\ is_connected c1 = false.
Proof.
  intros ((s0 & Hs & _) & (ws & Hws & Hopen) & _ & Htask & Hlistener)
         Hq Hitems.
  destruct (stop_log_queue_processing_drains c records Hq Hitems Hws Hopen Htask)
    as (q' & Hstop & Hempty).
  unfold disconnect, bind. rewrite Hstop. clear Hstop.
  destruct c as [u s t1 t2 con wso lq sp].
  cbn in Hs, Hws, Htask, Hlistener, Hq. subst.
  unfold _stop_incoming_message_processing, bind, read, assign, ret,
    await_update_console_task, run_update_console_task, sent_frames,
    is_connected.
  cbn. eexists. exists q'. repeat split; try reflexivity. exact Hempty.
Qed.

(** After a [disconnect] that returned, the queue is still there but
    its consumer is gone.  [log] keeps returning and enqueueing: the
    record of the first call after it is at the head of the queue and
    stays there, and whatever the sender task is given, nothing more is
    written. *)
Theorem logs_after_disconnect_are_not_sent c q (records : list string)
        (call : LogCall) (later : list LogCall) :
  connected c -> log_queue c = Some q -> items q = map Message records ->
  exists c1 c2 more,
    disconnect c = (Return tt, c1)
    /\ queue_items c1 = []
    /\ log_calls (call :: later) c1 = (Return tt, c2)
    /\ queue_items c2 = Message (call_record call c) :: more
    /\ run_log_queue_task c2 = c2
    /\ sent_frames c2 = (sent_frames c ++ records)%list
    /\ is_connected c2 = false.
Proof.
  intros Hc Hq Hitems.
  destruct (disconnect_leaves_empty_queue records Hc Hq Hitems)
    as (c1 & q1 & Hstop & Hq1 & Hempty & Hcon & _ & Htask & Hsent & Hoff).
  destruct (log_appends (call_objects call) (call_path call)
              (call_lineno call) (call_now call) c1 Hq1)
    as (c1' & q1' & added & Hlog & Hq1' & Hitems1 & Hhead).
  destruct Hhead as [more1 Hadded].
  { destruct q1 as [m its n]. cbn in Hempty. subst its.
    apply empty_queue_has_room. }
  destruct (log_calls_append later c1' Hq1')
    as (c2 & q2 & added2 & Hrun & Hq2 & Hitems2).
  destruct (log_calls_frame (call :: later) c1)
    as (c2' & Hrun' & Hs & Hws & Ht1 & _).
  assert (Hsame : c2' = c2).
  { cbn [log_calls] in Hrun'. unfold bind, log_call in Hrun'.
    rewrite Hlog, Hrun in Hrun'. now injection Hrun' as <-. }
  subst c2'.
  assert (Hidle : run_log_queue_task c2 = c2).
  { unfold run_log_queue_task. now rewrite Ht1, Htask. }
  exists c1, c2, (more1 ++ added2)%list.
  split; [exact Hstop|]. split; [unfold queue_items; now rewrite Hq1|].
  split; [exact Hrun'|]. split.
  { unfold queue_items. rewrite Hq2, Hitems2, Hitems1, Hempty, Hadded.
    cbn [app]. unfold call_record, log_record. now rewrite Hcon. }
  split; [exact Hidle|].
  split.
  - unfold sent_frames in *. now rewrite Hws.
  - unfold is_connected in *. now rewrite Hs, Hws.
Qed.

(** A ["server_info"] frame whose payload has a width and no height is
    applied by half: the width is set, then the missing key raises and
    ends the listener; the messages after it are never read. *)
Theorem server_info_without_height message later con doc type payload w e :
  ends_iteration (msg_type message) = false ->
  msg_type message = TEXT ->
  json_loads (msg_data message) = inr doc ->
  getitem doc "type" = inr type -> eq_str type "server_info" = true ->
  getitem doc "payload" = inr payload ->
  getitem payload "width" = inr w -> getitem payload "height" = inl e ->
  update_console (message :: later) con = (Failed e, set_width w con)
  /\ width (set_width w con) = w
  /\ height (set_width w con) = height con.
Proof.
  intros Hgoes Htext Hdoc Htype Hinfo Hpayload Hw Hh.
  rewrite (update_console_step message later con Hgoes). unfold on_message.
  rewrite Htext, Hdoc, Htype, Hinfo, Hpayload, Hw, Hh. repeat split.
Qed.

End ClientEdges.

Section EventInvariants.

Context `{Collaborators}.

Local Open Scope Z_scope.

Lemma send_next_keeps_socket_state q ws :
  let '(_, _, ws') := send_next q ws in ws_closed ws' = ws_closed ws.
Proof.
  unfold send_next, send_str.
  destruct (get q) as [[[text|] q1]|]; try reflexivity.
  destruct (ws_closed ws) eqn:Hclosed; cbn; congruence.
Qed.

Lemma send_queued_logs_keeps_socket_state pending :
  forall q ws,
    let '(_, _, ws') := send_queued_logs pending q ws in
    ws_closed ws' = ws_closed ws.
Proof.
  induction pending as [|item pending IH]; intros q ws; [reflexivity|].
  cbn [send_queued_logs].
  pose proof (send_next_keeps_socket_state q ws) as Hstep.
  destruct (send_next q ws) as [[[| |e] q1] ws1]; try exact Hstep.
  specialize (IH q1 ws1).
  destruct (send_queued_logs pending q1 ws1) as [[st q2] ws2]. congruence.
Qed.

Lemma update_console_keeps_buffer inbound :
  forall con,
    record_buffer (snd (update_console inbound con)) = record_buffer con.
Proof.
  induction inbound as [|message later IH]; intro con; [reflexivity|].
  cbn [update_console].
  destruct (ends_iteration (msg_type message)); [reflexivity|].
  unfold on_message.
  destruct (msg_type message); try apply IH.
  destruct (json_loads (msg_data message)) as [e|doc]; [reflexivity|].
  destruct (getitem doc "type") as [e|type]; [reflexivity|].
  destruct (eq_str type "server_info"); [|apply IH].
  destruct (getitem doc "payload") as [e|payload]; [reflexivity|].
  destruct (getitem payload "width") as [e|w]; [reflexivity|].
  destruct (getitem payload "height") as [e|h]; [reflexivity|].
  rewrite IH. reflexivity.
Qed.

Lemma quiet_event_keeps_state event c :
  quiet event = true ->
  session (happen event c) = session c
  /\ option_map ws_closed (websocket (happen event c))
     = option_map ws_closed (websocket c)
  /\ update_console_task (happen event c) = update_console_task c
  /\ width (console (happen event c)) = width (console c)
  /\ height (console (happen event c)) = height (console c).
Proof.
  destruct event as [call| | |inbound]; cbn [happen quiet]; intro Hquiet;
    try discriminate Hquiet.
  - destruct (log_frame (call_objects call) (call_path call)
                (call_lineno call) (call_now call) c)
      as (c1 & Hlog & Hs & Hws & _ & Ht2 & Hw & Hh & _).
    unfold log_call. rewrite Hlog. cbn [snd]. rewrite Hws. repeat split; auto.
  - destruct c as [u s t1 t2 con ws lq sp]. unfold sender_turn.
    cbn [log_queue_task log_queue websocket].
    destruct t1 as [[| |e]|], lq as [q|], ws as [ws|];
      try solve [repeat split; auto].
    pose proof (send_next_keeps_socket_state q ws) as Hstep.
    destruct (send_next q ws) as [[st q1] ws1]. cbn. rewrite Hstep.
    repeat split; auto.
  - destruct c as [u s t1 t2 con ws lq sp]. unfold run_log_queue_task.
    cbn [log_queue_task log_queue websocket].
    destruct t1 as [[| |e]|], lq as [q|], ws as [ws|];
      try solve [repeat split; auto].
    pose proof (send_queued_logs_keeps_socket_state (items q) q ws) as Hrun.
    destruct (send_queued_logs (items q) q ws) as [[st q1] ws1].
    cbn. rewrite Hrun. repeat split; auto.
Qed.

Lemma event_never_reconnects event c :
  is_connected c = false -> is_connected (happen event c) = false.
Proof.
  destruct event as [call| | |inbound].
  - intro Hoff.
    destruct (quiet_event_keeps_state (Logs call) c eq_refl)
      as (Hs & Hws & _).
    unfold is_connected in *. rewrite Hs.
    destruct (session c) as [s|]; [|reflexivity].
    destruct (websocket (happen (Logs call) c)) as [ws'|],
             (websocket c) as [ws|]; cbn in Hws; try discriminate;
      [|reflexivity].
    congruence.
  - intro Hoff.
    destruct (quiet_event_keeps_state SenderTurn c eq_refl) as (Hs & Hws & _).
    unfold is_connected in *. rewrite Hs.
    destruct (session c) as [s|]; [|reflexivity].
    destruct (websocket (happen SenderTurn c)) as [ws'|],
             (websocket c) as [ws|]; cbn in Hws; try discriminate;
      [|reflexivity].
    congruence.
  - intro Hoff.
    destruct (quiet_event_keeps_state SenderRuns c eq_refl) as (Hs & Hws & _).
    unfold is_connected in *. rewrite Hs.
    destruct (session c) as [s|]; [|reflexivity].
    destruct (websocket (happen SenderRuns c)) as [ws'|],
             (websocket c) as [ws|]; cbn in Hws; try discriminate;
      [|reflexivity].
    congruence.
  - cbn [happen]. destruct c as [u s t1 t2 con ws lq sp].
    unfold run_update_console_task, is_connected.
    cbn [update_console_task websocket session console].
    destruct t2 as [[| |e]|]; auto.
    destruct ws as [[closed sent]|]; auto.
    cbn [ws_closed]. destruct closed; [auto|].
    destruct (update_console inbound con) as [[| |e] con']; cbn; auto.
    intros _. destruct s as [[closed]|]; [|reflexivity].
    now rewrite orb_true_r.
Qed.

(** Once [is_connected] is false, no [log], no turn of the sender and
    no inbound message makes it true again; and as long as the listener
    reads nothing, [is_connected] and the console's dimensions stay as
    they are. *)
Theorem events_never_reconnect (events : list Event) c :
  (is_connected c = false -> is_connected (happen_all events c) = false)
  /\ (forallb quiet events = true ->
      is_connected (happen_all events c) = is_connected c
      /\ width (console (happen_all events c)) = width (console c)
      /\ height (console (happen_all events c)) = height (console c)).
Proof.
  split; revert c.
  - induction events as [|event events IH]; intros c Hoff; [exact Hoff|].
    cbn [happen_all fold_left]. apply IH. now apply event_never_reconnects.
  - induction events as [|event events IH]; intros c Hquiet; [auto|].
    cbn [forallb] in Hquiet. apply andb_prop in Hquiet as [Hq Hrest].
    cbn [happen_all fold_left].
    destruct (IH (happen event c) Hrest) as (Hon & Hw & Hh).
    destruct (quiet_event_keeps_state event c Hq)
      as (Hs & Hws & _ & Hw1 & Hh1).
    unfold happen_all in *. rewrite Hon, Hw, Hh. repeat split; auto.
    unfold is_connected. rewrite Hs.
    destruct (session c) as [s|]; [|reflexivity].
    destruct (websocket (happen event c)) as [ws'|],
             (websocket c) as [ws|]; cbn in Hws; try discriminate;
      [|reflexivity].
    congruence.
Qed.

(** [export_segments] hands the recorded segments over once: a second
    call right after the first returns none, and the dimensions of the
    console are not touched. *)
Theorem export_segments_drains_buffer objects (con : DevtoolsConsole) :
  let (segments, con1) := export_segments (print objects con) in
  segments
  = (record_buffer con ++ render (width con) (height con) objects)%list
  /\ fst (export_segments con1) = []
  /\ fst (export_segments (print objects con1))
     = render (width con) (height con) objects
  /\ width con1 = width con /\ height con1 = height con.
Proof. cbn. repeat split. Qed.

End EventInvariants.

Section Afterwards.

Context `{Collaborators}.

Local Open Scope Z_scope.

(** A second [disconnect] after one that returned returns as well: the
    sender has ended, so the sentinel it enqueues stays on the queue,
    and nothing more is written. *)
Theorem second_disconnect_leaves_sentinel c q (records : list string) :
  connected c -> log_queue c = Some q -> items q = map Message records ->
  exists c1 c2,
    disconnect c = (Return tt, c1)
    /\ disconnect c1 = (Return tt, c2)
    /\ queue_items c1 = [] /\ queue_items c2 = [ClientShutdown]
    /\ sent_frames c2 = sent_frames c1
    /\ is_connected c2 = false.
Proof.
  intros ((s0 & Hs & _) & (ws & Hws & Hopen) & _ & Htask & Hlistener)
         Hq Hitems.
  destruct (stop_log_queue_processing_drains c records Hq Hitems Hws Hopen Htask)
    as (q' & Hstop & Hempty).
  unfold disconnect at 1. unfold bind. rewrite Hstop. clear Hstop.
  destruct c as [u s t1 t2 con wso lq sp], q' as [m its n].
  cbn in Hs, Hws, Htask, Hlistener, Hq, Hempty. subst.
  unfold _stop_incoming_message_processing, bind, read, assign, ret,
    await_update_console_task, run_update_console_task.
  cbn. eexists. eexists. split; [reflexivity|].
  unfold disconnect, _stop_log_queue_processing,
    _stop_incoming_message_processing, bind, read, assign, ret,
    log_queue_put, await_log_queue_task, run_log_queue_task,
    await_update_console_task, run_update_console_task.
  cbn. rewrite empty_queue_has_room. cbn. repeat split; reflexivity.
Qed.

Lemma send_next_appends q ws :
  let '(_, _, ws') := send_next q ws in
  exists written, ws_sent ws' = (ws_sent ws ++ written)%list.
Proof.
  unfold send_next, send_str.
  destruct (get q) as [[[text|] q1]|];
    try (exists []; now rewrite app_nil_r).
  destruct (ws_closed ws); [exists []; now rewrite app_nil_r|].
  now exists [text].
Qed.

Lemma send_queued_logs_appends pending :
  forall q ws,
    let '(_, _, ws') := send_queued_logs pending q ws in
    exists written, ws_sent ws' = (ws_sent ws ++ written)%list.
Proof.
  induction pending as [|item pending IH]; intros q ws.
  - exists []. cbn. now rewrite app_nil_r.
  - cbn [send_queued_logs].
    pose proof (send_next_appends q ws) as Hstep.
    destruct (send_next q ws) as [[[| |e] q1] ws1]; try exact Hstep.
    specialize (IH q1 ws1).
    destruct (send_queued_logs pending q1 ws1) as [[st q2] ws2].
    destruct Hstep as [w1 Hw1], IH as [w2 Hw2].
    exists (w1 ++ w2)%list. now rewrite Hw2, Hw1, app_assoc.
Qed.

Lemma event_appends event c :
  exists written,
    sent_frames (happen event c) = (sent_frames c ++ written)%list.
Proof.
  destruct event as [call| | |inbound]; cbn [happen].
  - destruct (log_frame (call_objects call) (call_path call)
                (call_lineno call) (call_now call) c)
      as (c1 & Hlog & _ & Hws & _).
    unfold log_call. rewrite Hlog. cbn [snd]. unfold sent_frames.
    rewrite Hws. exists []. now rewrite app_nil_r.
  - destruct c as [u s t1 t2 con ws lq sp]. unfold sender_turn, sent_frames.
    cbn [log_queue_task log_queue websocket].
    destruct t1 as [[| |e]|], lq as [q|], ws as [ws|];
      try (exists []; now rewrite app_nil_r).
    pose proof (send_next_appends q ws) as Hstep.
    destruct (send_next q ws) as [[st q1] ws1]. exact Hstep.
  - destruct c as [u s t1 t2 con ws lq sp].
    unfold run_log_queue_task, sent_frames.
    cbn [log_queue_task log_queue websocket].
    destruct t1 as [[| |e]|], lq as [q|], ws as [ws|];
      try (exists []; now rewrite app_nil_r).
    pose proof (send_queued_logs_appends (items q) q ws) as Hrun.
    destruct (send_queued_logs (items q) q ws) as [[st q1] ws1]. exact Hrun.
  - destruct c as [u s t1 t2 con ws lq sp].
    unfold run_update_console_task, sent_frames.
    cbn [update_console_task websocket console].
    destruct t2 as [[| |e]|], ws as [[closed sent]|];
      try (exists []; now rewrite app_nil_r).
    cbn [ws_closed]. destruct closed; [exists []; now rewrite app_nil_r|].
    destruct (update_console inbound con) as [[| |e] con'];
      exists []; cbn; now rewrite app_nil_r.
Qed.

(** What was written to the socket stays written: whatever the caller
    and the tasks do, the frames sent so far remain a prefix of the
    frames sent later, and only the sender adds to them. *)
Theorem sent_frames_only_grow (events : list Event) c :
  (exists written,
     sent_frames (happen_all events c) = (sent_frames c ++ written)%list)
  /\ (forall call, sent_frames (happen (Logs call) c) = sent_frames c)
  /\ (forall inbound,
        sent_frames (happen (Receives inbound) c) = sent_frames c).
Proof.
  split; [|split].
  - revert c. induction events as [|event events IH]; intro c.
    + exists []. cbn. now rewrite app_nil_r.
    + cbn [happen_all fold_left].
      destruct (event_appends event c) as [w1 Hw1].
      destruct (IH (happen event c)) as [w2 Hw2].
      exists (w1 ++ w2)%list. unfold happen_all in Hw2.
      now rewrite Hw2, Hw1, app_assoc.
  - intro call. cbn [happen].
    destruct (log_frame (call_objects call) (call_path call)
                (call_lineno call) (call_now call) c)
      as (c1 & Hlog & _ & Hws & _).
    unfold log_call. rewrite Hlog. cbn [snd]. unfold sent_frames.
    now rewrite Hws.
  - intro inbound. cbn [happen]. destruct c as [u s t1 t2 con ws lq sp].
    unfold run_update_console_task, sent_frames.
    cbn [update_console_task websocket console].
    destruct t2 as [[| |e]|], ws as [[closed sent]|]; try reflexivity.
    cbn [ws_closed]. destruct closed; [reflexivity|].
    destruct (update_console inbound con) as [[| |e] con']; reflexivity.
Qed.

End Afterwards.

Section Recovery.

Context `{Collaborators}.

Local Open Scope Z_scope.

Lemma log_calls_console (calls : list LogCall) :
  forall c,
    record_buffer (console c) = [] ->
    exists c',
      log_calls calls c = (Return tt, c') /\ console c' = console c.
Proof.
  induction calls as [|call calls IH]; intros c Hbuffer.
  - exists c. split; reflexivity.
  - destruct (log_frame (call_objects call) (call_path call)
                (call_lineno call) (call_now call) c)
      as (c1 & Hlog & _ & _ & _ & _ & Hw & Hh & Hb & _).
    assert (Hsame : console c1 = console c).
    { destruct (console c1), (console c). cbn in *. congruence. }
    destruct (IH c1 Hb) as (c' & Hrun & Hcon).
    exists c'. cbn [log_calls]. unfold bind, log_call. rewrite Hlog, Hrun.
    split; congruence.
Qed.

(** The whole of the spillover mechanism.  On a connected client with
    an empty queue, 512 + K calls of [log] before the sender gets a
    turn queue the first 512 records and discard K.  Once the sender
    has drained the queue, the next call of [log] queues its record and
    the notice of K discarded messages, and the sender writes both: the
    server has the first 512 records, that record and the notice, and
    the counter is back at 0. *)
Theorem overflow_is_reported (calls : list LogCall) (K : Z)
        (next : LogCall) c q ws :
  log_queue c = Some q -> maxsize q = LOG_QUEUE_MAXSIZE -> items q = [] ->
  spillover c = 0 -> record_buffer (console c) = [] ->
  websocket c = Some ws -> ws_closed ws = false ->
  log_queue_task c = Some Running ->
  0 < K -> Z.of_nat (List.length calls) = LOG_QUEUE_MAXSIZE + K ->
  exists c1,
    log_calls calls c = (Return tt, c1)
    /\ spillover c1 = K
    /\ sent_frames
         (run_log_queue_task (snd (log_call next (run_log_queue_task c1))))
       = (ws_sent ws
          ++ map (fun call => call_record call c)
                 (firstn (Z.to_nat LOG_QUEUE_MAXSIZE) calls)
          ++ [call_record next c; spillover_notice K])%list
    /\ spillover
         (run_log_queue_task (snd (log_call next (run_log_queue_task c1))))
       = 0
    /\ queue_items
         (run_log_queue_task (snd (log_call next (run_log_queue_task c1))))
       = [].
Proof.
  intros Hq Hmax Hempty Hzero Hbuffer Hws Hopen Htask HK Hlen.
  set (kept := firstn (Z.to_nat LOG_QUEUE_MAXSIZE) calls).
  set (dropped := skipn (Z.to_nat LOG_QUEUE_MAXSIZE) calls).
  assert (Hsplit : calls = (kept ++ dropped)%list)
    by (symmetry; apply firstn_skipn).
  assert (Hkept : Z.of_nat (List.length kept) = LOG_QUEUE_MAXSIZE).
  { subst kept. rewrite length_firstn. unfold LOG_QUEUE_MAXSIZE in *. lia. }
  assert (Hdropped : Z.of_nat (List.length dropped) = K).
  { subst dropped. rewrite length_skipn. unfold LOG_QUEUE_MAXSIZE in *. lia. }
  (* the first 512 calls fill the queue *)
  destruct (log_calls_records kept c Hq Hmax Hzero Hbuffer)
    as (q1 & Hfill & Hmax1 & Hitems1).
  { unfold qsize. rewrite Hempty. cbn [List.length]. lia. }
  rewrite Hempty in Hitems1. cbn [app] in Hitems1.
  assert (Hrecords : items q1
                     = map Message (map (fun call => call_record call c) kept))
    by (now rewrite map_map).
  set (c0 := with_log_queue (Some q1) c) in *.
  (* the K calls that follow are counted and leave the queue as it is *)
  destruct (log_calls_drop dropped c0 (q := q1)) as (c1 & Hdrop & Hq1 & Hcount);
    [reflexivity | congruence
     | unfold qsize; rewrite Hitems1, length_map; exact Hkept | ].
  destruct (log_calls_frame dropped c0)
    as (c1' & Hdrop' & _ & Hws1 & Htask1 & _).
  rewrite Hdrop in Hdrop'. injection Hdrop' as <-.
  destruct (log_calls_console dropped c0 Hbuffer) as (c1' & Hdrop' & Hcon1).
  rewrite Hdrop in Hdrop'. injection Hdrop' as <-.
  change (console c0) with (console c) in Hcon1.
  change (websocket c0) with (websocket c) in Hws1.
  change (log_queue_task c0) with (log_queue_task c) in Htask1.
  change (spillover c0) with (spillover c) in Hcount.
  rewrite Hws in Hws1. rewrite Htask in Htask1.
  rewrite Hzero, Hdropped, Z.add_0_l in Hcount.
  exists c1. split.
  { rewrite Hsplit, log_calls_app, Hfill. exact Hdrop. }
  split; [exact Hcount|].
  (* the sender drains the queue *)
  rewrite (run_log_queue_task_drains c1 _ Htask1 Hq1 Hws1 Hopen Hrecords).
  set (sent := (ws_sent ws ++ map (fun call => call_record call c) kept)%list).
  set (q2 := {| maxsize := maxsize q1; items := [];
                unfinished_tasks := _ |}).
  set (c2 := with_log_queue_task _ _).
  (* the next call queues its record and the notice *)
  assert (Hcon2 : console c2 = console c) by exact Hcon1.
  assert (Hnext : log_call next c2
                  = (Return tt,
                     with_spillover 0
                       (with_log_queue
                          (Some (enqueue (Message (spillover_notice K))
                                   (enqueue (Message (call_record next c)) q2)))
                          c2))).
  { unfold log_call.
    rewrite (log_enqueues_notice (call_objects next) (call_path next)
               (call_lineno next) (call_now next) c2 (q := q2));
      [ | reflexivity | cbn; congruence
        | change (spillover c2) with (spillover c1); lia
        | unfold qsize, LOG_QUEUE_MAXSIZE; cbn; lia ].
    rewrite printed_unchanged by (rewrite Hcon2; exact Hbuffer).
    change (spillover c2) with (spillover c1). rewrite Hcount.
    unfold call_record, log_record. rewrite Hcon2. reflexivity. }
  rewrite Hnext. cbn [snd].
  set (q3 := enqueue _ (enqueue _ q2)).
  set (c3 := with_spillover 0 _).
  rewrite (run_log_queue_task_drains c3
             [call_record next c; spillover_notice K] (q := q3)
             (ws := {| ws_closed := false; ws_sent := sent |}));
    try reflexivity.
  unfold sent_frames, queue_items. cbn.
  subst sent. rewrite <- app_assoc. repeat split; reflexivity.
Qed.

End Recovery.

(* ================================================================== *)
(** ** The box renderer *)

Module TextualBoxFacts.

Import TextualBox.

Section Rendering.

Variable Style : Type.
Variable Renderable : Type.
Variable get_style : str -> exn + Style.
Variable render_lines : Renderable -> Z -> exn + list (list (Segment Style)).

Local Open Scope Z_scope.

Lemma eval_then (A B : Type) (a : A) (k : A -> Gen Style B) :
  then_ (eval Style (inr a)) k = k a.
Proof. unfold then_, eval. now destruct (k a). Qed.

Lemma eval_fails (A B : Type) (e : exn) (k : A -> Gen Style B) :
  then_ (eval Style (inl e)) k = ([], inl e).
Proof. reflexivity. Qed.

Lemma snd_then (A B : Type) (m : Gen Style A) (k : A -> Gen Style B) :
  snd (then_ m k)
  = match snd m with inl e => inl e | inr a => snd (k a) end.
Proof. destruct m as [out [e|a]]; cbn; [reflexivity|]. now destruct (k a). Qed.

Lemma fst_then (A B : Type) (m : Gen Style A) (k : A -> Gen Style B) :
  fst (then_ m k)
  = (fst m ++ match snd m with inl e => [] | inr a => fst (k a) end)%list.
Proof.
  destruct m as [out [e|a]]; cbn; [now rewrite app_nil_r|]. now destruct (k a).
Qed.

Lemma for_each_yields (A : Type) (body : A -> Gen Style unit)
      (f : A -> list (Segment Style)) (l : list A) :
  (forall x, body x = (f x, inr tt)) ->
  for_each l body = (List.concat (map f l), inr tt).
Proof.
  intro Hbody. induction l as [|x l IH]; [reflexivity|].
  cbn [for_each map List.concat]. rewrite Hbody, IH. reflexivity.
Qed.

Lemma side_name_not_none (side : str) :
  str_eqb (side_name side) (of_ascii "none") = false.
Proof.
  unfold side_name. destruct (str_eqb side (of_ascii "none")) eqn:Hnone.
  - reflexivity.
  - exact Hnone.
Qed.

Lemma subscript_known (side : str) :
  known_side side = true ->
  exists a b c d e f g h i,
    subscript BOX_STYLES (side_name side)
    = inr ([a; b; c], [d; e; f], [g; h; i]).
Proof.
  unfold known_side, BOX_STYLES. cbn [map fst existsb subscript].
  generalize (side_name side). intro key.
  repeat (destruct (str_eqb key _);
          [intros _; do 9 eexists; reflexivity|]).
  discriminate.
Qed.

Lemma subscript_unknown (side : str) :
  known_side side = false ->
  subscript BOX_STYLES (side_name side) = inl KeyError.
Proof.
  unfold known_side, BOX_STYLES. cbn [map fst existsb subscript].
  generalize (side_name side). intro key.
  repeat (destruct (str_eqb key _); [discriminate|]).
  reflexivity.
Qed.


Lemma border_row_total (a b c : N) (left right : str) (render_width : Z) :
  exists row,
    border_row [a; b; c] left right render_width = inr row
    /\ List.length row
       = (Nat.b2n (truthy left) + Z.to_nat render_width
          + Nat.b2n (truthy right))%nat.
Proof.
  eexists. split; [reflexivity|].
  rewrite !length_app, repeat_length.
  destruct (truthy left), (truthy right); cbn; lia.
Qed.

Lemma blank_side_known (side : str) :
  truthy (side_name side) = false -> known_side side = true.
Proof.
  unfold known_side. destruct (side_name side); [reflexivity|discriminate].
Qed.

Ltac known_or_not side :=
  let Hknown := fresh "Hknown" in
  let Hrows := fresh "Hrows" in
  destruct (known_side side) eqn:Hknown;
  [ destruct (subscript_known side Hknown)
      as (?a & ?b & ?c & ?d & ?e & ?f & ?g & ?h & ?i & Hrows)
  | pose proof (subscript_unknown side Hknown) as Hrows ].

Ltac blank_or_not side :=
  let Hblank := fresh "Hblank" in
  destruct (truthy (side_name side)) eqn:Hblank;
  [ | try (rewrite (blank_side_known side Hblank) in *; discriminate) ].

Ltac run_box :=
  repeat first
    [ rewrite eval_then
    | rewrite eval_fails
    | erewrite for_each_yields by (intro; reflexivity)
    | progress cbn [negb andb top_row middle_row bottom_row fst snd
                    border_row unpack3 str_at nth_error then_ yield
                    yield_from done] ].

(** [Box] raises for a side name that is neither ["none"] nor a key of
    [BOX_STYLES], and for nothing else of its own: with the styles
    resolved and the content rendered, the generator ends normally when
    all four sides are known and by [KeyError] otherwise. *)
Theorem box_raises_on_unknown_side_only
        r side1 side2 side3 side4 name1 name2 name3 name4
        style1 style2 style3 style4 max_width lines :
  get_style name1 = inr style1 -> get_style name2 = inr style2 ->
  get_style name3 = inr style3 -> get_style name4 = inr style4 ->
  render_lines r (max_width - int_of_bool (truthy (side_name side4))
                  - int_of_bool (truthy (side_name side2))) = inr lines ->
  snd (__rich_console__ get_style render_lines
         {| renderable := r;
            sides := (side1, side2, side3, side4);
            styles := (name1, name2, name3, name4) |} max_width)
  = if known_side side1 && known_side side2 && known_side side3
       && known_side side4
    then inr tt else inl KeyError.
Proof.
  intros H1 H2 H3 H4 Hlines.
  unfold __rich_console__. cbn [sides styles renderable].
  rewrite H1, H2, H3, H4, Hlines, !eval_then.
  rewrite (side_name_not_none side1). cbn [negb].
  clear H1 H2 H3 H4 Hlines.
  known_or_not side1; known_or_not side2; known_or_not side3;
    known_or_not side4;
    blank_or_not side2; blank_or_not side3; blank_or_not side4;
    rewrite ?Hrows, ?Hrows0, ?Hrows1, ?Hrows2; run_box; reflexivity.
Qed.

Lemma text_of_app (l1 l2 : list (Segment Style)) :
  text_of (l1 ++ l2) = (text_of l1 ++ text_of l2)%list.
Proof. unfold text_of. now rewrite map_app, concat_app. Qed.

Lemma text_of_cons (s : Segment Style) (l : list (Segment Style)) :
  text_of (s :: l) = (text s ++ text_of l)%list.
Proof. reflexivity. Qed.

(** A side that is ["none"] or empty is not skipped at the top as it
    is at the bottom: the generator starts with a row of spaces, as
    wide as the borders and the content, in the top style. *)
Theorem blank_top_row_is_drawn
        r side1 side2 side3 side4 name1 name2 name3 name4
        style1 style2 style3 style4 max_width lines :
  side_name side1 = [] ->
  get_style name1 = inr style1 -> get_style name2 = inr style2 ->
  get_style name3 = inr style3 -> get_style name4 = inr style4 ->
  render_lines r (max_width - int_of_bool (truthy (side_name side4))
                  - int_of_bool (truthy (side_name side2))) = inr lines ->
  exists rest,
    fst (__rich_console__ get_style render_lines
           {| renderable := r;
              sides := (side1, side2, side3, side4);
              styles := (name1, name2, name3, name4) |} max_width)
    = {| text :=
           repeat 32%N
             (Nat.b2n (truthy (side_name side4))
              + Z.to_nat (max_width
                          - int_of_bool (truthy (side_name side4))
                          - int_of_bool (truthy (side_name side2)))
              + Nat.b2n (truthy (side_name side2)));
         style := Some style1 |}
      :: line Style :: rest.
Proof.
  intros Hblank H1 H2 H3 H4 Hlines.
  unfold __rich_console__. cbn [sides styles renderable].
  rewrite H1, H2, H3, H4, Hlines, !eval_then.
  rewrite (side_name_not_none side1). cbn [negb].
  rewrite Hblank. cbn [subscript BOX_STYLES str_eqb].
  rewrite eval_then. cbn [top_row fst border_row unpack3].
  rewrite eval_then, !fst_then. cbn [yield fst snd app].
  eexists. f_equal. f_equal.
  rewrite !repeat_app.
  now destruct (truthy (side_name side4)), (truthy (side_name side2)).
Qed.

(** With no side drawn the box yields a row of [max_width] spaces and
    a new line, then every line of the content followed by a new line,
    and no bottom row. *)
Theorem borderless_box_output
        r side1 side2 side3 side4 name1 name2 name3 name4
        style1 style2 style3 style4 max_width lines :
  side_name side1 = [] -> side_name side2 = [] ->
  side_name side3 = [] -> side_name side4 = [] ->
  get_style name1 = inr style1 -> get_style name2 = inr style2 ->
  get_style name3 = inr style3 -> get_style name4 = inr style4 ->
  render_lines r max_width = inr lines ->
  __rich_console__ get_style render_lines
    {| renderable := r;
       sides := (side1, side2, side3, side4);
       styles := (name1, name2, name3, name4) |} max_width
  = ({| text := repeat 32%N (Z.to_nat max_width); style := Some style1 |}
       :: line Style
       :: List.concat (map (fun l => l ++ [line Style])%list lines),
     inr tt).
Proof.
  intros Hs1 Hs2 Hs3 Hs4 H1 H2 H3 H4 Hlines.
  unfold __rich_console__. cbn [sides styles renderable].
  rewrite Hs1, Hs2, Hs3, Hs4. cbn [truthy int_of_bool].
  rewrite !Z.sub_0_r.
  rewrite H1, H2, H3, H4, Hlines, !eval_then.
  cbn [negb andb str_eqb of_ascii list_ascii_of_string map subscript
       BOX_STYLES]. run_box.
  now rewrite !app_nil_r.
Qed.

(** A side name that is not known raises [KeyError] where its row is
    built, not before: with an unknown top side the generator yields
    nothing, whatever the other sides are; with a known top and an
    unknown left side it has yielded the top row and its new line when
    it raises. *)
Theorem unknown_left_side_raises_after_top_row
        r side1 side2 side3 side4 name1 name2 name3 name4
        style1 style2 style3 style4 max_width lines :
  get_style name1 = inr style1 -> get_style name2 = inr style2 ->
  get_style name3 = inr style3 -> get_style name4 = inr style4 ->
  render_lines r (max_width - int_of_bool (truthy (side_name side4))
                  - int_of_bool (truthy (side_name side2))) = inr lines ->
  (known_side side1 = false ->
   __rich_console__ get_style render_lines
     {| renderable := r;
        sides := (side1, side2, side3, side4);
        styles := (name1, name2, name3, name4) |} max_width
   = ([], inl KeyError))
  /\ (known_side side1 = true -> known_side side4 = false ->
      exists row,
        __rich_console__ get_style render_lines
          {| renderable := r;
             sides := (side1, side2, side3, side4);
             styles := (name1, name2, name3, name4) |} max_width
        = ([{| text := row; style := Some style1 |}; line Style],
           inl KeyError)).
Proof.
  intros H1 H2 H3 H4 Hlines.
  unfold __rich_console__. cbn [sides styles renderable].
  rewrite H1, H2, H3, H4, Hlines, !eval_then.
  rewrite (side_name_not_none side1). cbn [negb].
  clear H1 H2 H3 H4 Hlines.
  split.
  - intro Hunknown1. rewrite (subscript_unknown side1 Hunknown1). reflexivity.
  - intros Hknown1 Hunknown4.
    pose proof (subscript_unknown side4 Hunknown4) as Hrows4.
    destruct (subscript_known side1 Hknown1)
      as (a & b & c & d & e & f & g & h & i & Hrows1).
    blank_or_not side4; blank_or_not side2;
      rewrite ?Hrows1, ?Hrows4; run_box; eexists; reflexivity.
Qed.

(** A style name that the console cannot resolve raises before the
    content is rendered and before anything is yielded; the names are
    resolved in the order top, right, bottom, left. *)
Theorem unresolved_style_raises_first
        (box : Box Renderable) name1 name2 name3 name4 max_width e :
  styles box = (name1, name2, name3, name4) ->
  (get_style name1 = inl e
   \/ (exists s1, get_style name1 = inr s1) /\ get_style name2 = inl e
   \/ (exists s1 s2, get_style name1 = inr s1 /\ get_style name2 = inr s2)
      /\ get_style name3 = inl e
   \/ (exists s1 s2 s3,
         get_style name1 = inr s1 /\ get_style name2 = inr s2
         /\ get_style name3 = inr s3)
      /\ get_style name4 = inl e) ->
  __rich_console__ get_style render_lines box max_width = ([], inl e).
Proof.
  intros Hstyles Hfails.
  unfold __rich_console__. rewrite Hstyles.
  destruct (sides box) as [[[side1 side2] side3] side4].
  destruct Hfails
    as [H1 | [[(s1 & H1) H2]
       | [[(s1 & s2 & H1 & H2) H3] | [(s1 & s2 & s3 & H1 & H2 & H3) H4]]]].
  - now rewrite H1.
  - now rewrite H1, eval_then, H2.
  - now rewrite H1, eval_then, H2, eval_then, H3.
  - now rewrite H1, eval_then, H2, eval_then, H3, eval_then, H4.
Qed.

(** What a box with known sides yields: the top row, then each content
    line between the border characters of the sides that are drawn,
    then the bottom row if that side is drawn. *)
Lemma box_output
      r side1 side2 side3 side4 name1 name2 name3 name4
      style1 style2 style3 style4 max_width lines :
  known_side side1 = true -> known_side side2 = true ->
  known_side side3 = true -> known_side side4 = true ->
  get_style name1 = inr style1 -> get_style name2 = inr style2 ->
  get_style name3 = inr style3 -> get_style name4 = inr style4 ->
  render_lines r (max_width - int_of_bool (truthy (side_name side4))
                  - int_of_bool (truthy (side_name side2))) = inr lines ->
  exists top_left top_mid top_right left_char right_char
         bottom_left bottom_mid bottom_right,
    __rich_console__ get_style render_lines
      {| renderable := r;
         sides := (side1, side2, side3, side4);
         styles := (name1, name2, name3, name4) |} max_width
    = (({| text :=
             (if truthy (side_name side4) then [top_left] else [])
             ++ repeat top_mid
                  (Z.to_nat (max_width
                             - int_of_bool (truthy (side_name side4))
                             - int_of_bool (truthy (side_name side2))))
             ++ (if truthy (side_name side2) then [top_right] else []);
           style := Some style1 |}
        :: line Style
        :: List.concat
             (map (fun l =>
                     (if truthy (side_name side4)
                      then [{| text := [left_char]; style := Some style4 |}]
                      else [])
                     ++ l
                     ++ [if truthy (side_name side2)
                         then {| text := [right_char; 10%N];
                                 style := Some style2 |}
                         else line Style])
                  lines)
        ++ (if truthy (side_name side3)
            then [{| text :=
                       (if truthy (side_name side4) then [bottom_left] else [])
                       ++ repeat bottom_mid
                            (Z.to_nat
                               (max_width
                                - int_of_bool (truthy (side_name side4))
                                - int_of_bool (truthy (side_name side2))))
                       ++ (if truthy (side_name side2)
                           then [bottom_right] else []);
                     style := Some style3 |};
                  line Style]
            else []))%list,
       inr tt).
Proof.
  intros Hk1 Hk2 Hk3 Hk4 H1 H2 H3 H4 Hlines.
  unfold __rich_console__. cbn [sides styles renderable].
  rewrite H1, H2, H3, H4, Hlines, !eval_then.
  rewrite (side_name_not_none side1). cbn [negb].
  clear H1 H2 H3 H4 Hlines.
  destruct (subscript_known side1 Hk1)
    as (a1 & b1 & c1 & d1 & e1 & f1 & g1 & h1 & i1 & Hrows1).
  destruct (subscript_known side2 Hk2)
    as (a2 & b2 & c2 & d2 & e2 & f2 & g2 & h2 & i2 & Hrows2).
  destruct (subscript_known side3 Hk3)
    as (a3 & b3 & c3 & d3 & e3 & f3 & g3 & h3 & i3 & Hrows3).
  destruct (subscript_known side4 Hk4)
    as (a4 & b4 & c4 & d4 & e4 & f4 & g4 & h4 & i4 & Hrows4).
  exists a1, b1, c1, d4, f2, g3, h3, i3.
  rewrite Hrows1. run_box.
  destruct (truthy (side_name side4)) eqn:Hleft,
           (truthy (side_name side2)) eqn:Hright,
           (truthy (side_name side3)) eqn:Hbottom;
    rewrite ?Hrows2, ?Hrows3, ?Hrows4; run_box;
    rewrite ?Hleft, ?Hright, ?app_nil_r; reflexivity.
Qed.

Lemma text_of_lines (f : list (Segment Style) -> list (Segment Style))
      (g : list (Segment Style) -> str) (lines : list (list (Segment Style))) :
  (forall l, text_of (f l) = (g l ++ [10%N])%list) ->
  text_of (List.concat (map f lines))
  = List.concat (map (fun row => row ++ [10%N])%list (map g lines)).
Proof.
  intro Hf. induction lines as [|l lines IH]; [reflexivity|].
  cbn [map List.concat]. now rewrite text_of_app, Hf, IH.
Qed.

(** A box whose sides are known fills its width: around content whose
    lines fill the width they were rendered at, every row it prints,
    border rows included, has exactly [max_width] characters and a new
    line after it; there is one row above the content, and one below
    if the bottom side is drawn. *)
Theorem box_rows_span_width
        r side1 side2 side3 side4 name1 name2 name3 name4
        style1 style2 style3 style4 max_width lines :
  known_side side1 = true -> known_side side2 = true ->
  known_side side3 = true -> known_side side4 = true ->
  get_style name1 = inr style1 -> get_style name2 = inr style2 ->
  get_style name3 = inr style3 -> get_style name4 = inr style4 ->
  int_of_bool (truthy (side_name side4))
  + int_of_bool (truthy (side_name side2)) <= max_width ->
  render_lines r (max_width - int_of_bool (truthy (side_name side4))
                  - int_of_bool (truthy (side_name side2))) = inr lines ->
  Forall (fun l =>
            List.length (text_of l)
            = Z.to_nat (max_width - int_of_bool (truthy (side_name side4))
                        - int_of_bool (truthy (side_name side2))))
         lines ->
  exists rows,
    text_of (fst (__rich_console__ get_style render_lines
                    {| renderable := r;
                       sides := (side1, side2, side3, side4);
                       styles := (name1, name2, name3, name4) |} max_width))
    = List.concat (map (fun row => row ++ [10%N])%list rows)
    /\ List.length rows
       = (1 + List.length lines + Nat.b2n (truthy (side_name side3)))%nat
    /\ Forall (fun row => List.length row = Z.to_nat max_width) rows.
Proof.
  intros Hk1 Hk2 Hk3 Hk4 H1 H2 H3 H4 Hwide Hlines Hfill.
  destruct (@box_output r side1 side2 side3 side4
              name1 name2 name3 name4 style1 style2 style3 style4
              max_width lines Hk1 Hk2 Hk3 Hk4 H1 H2 H3 H4 Hlines)
    as (tl & tm & tr & lc & rc & bl & bm & br & Hout).
  rewrite Hout. cbn [fst]. clear Hout Hlines Hk1 Hk2 Hk3 Hk4 H1 H2 H3 H4.
  set (left := truthy (side_name side4)) in *.
  set (right := truthy (side_name side2)) in *.
  set (bottom := truthy (side_name side3)) in *.
  clearbody left right bottom.
  set (n := Z.to_nat (max_width - int_of_bool left - int_of_bool right)) in *.
  assert (Hn : Z.to_nat max_width = (Nat.b2n left + n + Nat.b2n right)%nat)
    by (subst n; destruct left, right; cbn in *; lia).
  clearbody n. clear Hwide.
  exists ((((if left then [tl] else []) ++ repeat tm n
            ++ (if right then [tr] else []))
           :: map (fun l => (if left then [lc] else []) ++ text_of l
                            ++ (if right then [rc] else []))
                  lines)
          ++ (if bottom
              then [(if left then [bl] else []) ++ repeat bm n
                    ++ (if right then [br] else [])]
              else []))%list.
  split; [|split].
  - rewrite !text_of_cons, text_of_app. cbn [text line].
    rewrite map_app, concat_app. cbn [map List.concat].
    rewrite <- !app_assoc. f_equal. f_equal. f_equal. f_equal.
    f_equal.
    + apply text_of_lines. intro l.
      rewrite !text_of_app. destruct left, right; cbn;
        rewrite ?app_nil_r, <- ?app_assoc; reflexivity.
    + destruct bottom; cbn; [|reflexivity].
      now rewrite ?app_nil_r, <- !app_assoc.
  - rewrite length_app. cbn [List.length]. rewrite length_map.
    destruct bottom; cbn; lia.
  - apply Forall_app. split.
    + constructor.
      * rewrite !length_app, repeat_length. destruct left, right; cbn in *; lia.
      * apply Forall_map. eapply Forall_impl; [|exact Hfill].
        intros l Hl. cbn beta in Hl. rewrite !length_app, Hl.
        destruct left, right; cbn in *; lia.
    + destruct bottom; constructor; [|constructor].
      rewrite !length_app, repeat_length. destruct left, right; cbn in *; lia.
Qed.

End Rendering.
End TextualBoxFacts.

Module BoxWitnesses.

Import TextualBox BoxExamples TextualBoxFacts.

Local Open Scope string_scope.
Local Open Scope Z_scope.

Lemma foo_in_rounded_box :
  text_of (fst (__rich_console__ get_style render_lines foo 5))
  = [0x256d; 0x2500; 0x2500; 0x2500; 0x256e; 10;
     0x2502; 102; 111; 111; 0x2502; 10;
     0x2570; 0x2500; 0x2500; 0x2500; 0x256f; 10]%N.
Proof. vm_compute. reflexivity. Qed.

Lemma foo_rows_span_width :
  exists rows,
    text_of (fst (__rich_console__ get_style render_lines foo 5))
    = List.concat (map (fun row => row ++ [10%N])%list rows)
    /\ List.length rows = 3%nat
    /\ Forall (fun row => List.length row = 5%nat) rows.
Proof.
  apply (@box_rows_span_width str (list str) get_style render_lines
           [of_ascii "foo"] (of_ascii "rounded") (of_ascii "rounded")
           (of_ascii "rounded") (of_ascii "rounded")
           (of_ascii "green") (of_ascii "green") (of_ascii "green")
           (of_ascii "on green")
           (of_ascii "green") (of_ascii "green") (of_ascii "green")
           (of_ascii "on green") 5
           [[ {| text := of_ascii "foo"; style := None |} ]]);
    try reflexivity.
  - vm_compute. discriminate.
  - repeat constructor.
Defined.

Lemma foo_with_unknown_side :
  snd (__rich_console__ get_style render_lines
         (with_sides (of_ascii "rounded", of_ascii "wavy", of_ascii "none",
                      of_ascii "solid") foo) 5)
  = inl KeyError.
Proof.
  apply (@box_raises_on_unknown_side_only str (list str) get_style render_lines
           [of_ascii "foo"] (of_ascii "rounded") (of_ascii "wavy")
           (of_ascii "none") (of_ascii "solid")
           (of_ascii "green") (of_ascii "green") (of_ascii "green")
           (of_ascii "on green")
           (of_ascii "green") (of_ascii "green") (of_ascii "green")
           (of_ascii "on green") 5
           [[ {| text := of_ascii "foo"; style := None |} ]]);
    reflexivity.
Defined.

Lemma foo_without_top_side :
  exists rest,
    fst (__rich_console__ get_style render_lines
           (with_sides (of_ascii "none", of_ascii "rounded",
                        of_ascii "rounded", of_ascii "rounded") foo) 5)
    = {| text := repeat 32%N 5; style := Some (of_ascii "green") |}
      :: line str :: rest.
Proof.
  apply (@blank_top_row_is_drawn str (list str) get_style render_lines
           [of_ascii "foo"] (of_ascii "none") (of_ascii "rounded")
           (of_ascii "rounded") (of_ascii "rounded")
           (of_ascii "green") (of_ascii "green") (of_ascii "green")
           (of_ascii "on green")
           (of_ascii "green") (of_ascii "green") (of_ascii "green")
           (of_ascii "on green") 5
           [[ {| text := of_ascii "foo"; style := None |} ]]);
    reflexivity.
Defined.

Lemma foo_without_sides :
  __rich_console__ get_style render_lines
    (with_sides (of_ascii "none", of_ascii "none", of_ascii "none",
                 of_ascii "none") foo) 5
  = ([ {| text := repeat 32%N 5; style := Some (of_ascii "green") |};
       line str;
       {| text := of_ascii "foo  "; style := None |};
       line str ],
     inr tt).
Proof.
  apply (@borderless_box_output str (list str) get_style render_lines
           [of_ascii "foo"] (of_ascii "none") (of_ascii "none")
           (of_ascii "none") (of_ascii "none")
           (of_ascii "green") (of_ascii "green") (of_ascii "green")
           (of_ascii "on green")
           (of_ascii "green") (of_ascii "green") (of_ascii "green")
           (of_ascii "on green") 5
           [[ {| text := of_ascii "foo  "; style := None |} ]]);
    reflexivity.
Defined.

Lemma foo_with_unknown_left_side :
  (exists row,
     __rich_console__ get_style render_lines
       (with_sides (of_ascii "rounded", of_ascii "rounded",
                    of_ascii "rounded", of_ascii "wavy") foo) 5
     = ([ {| text := row; style := Some (of_ascii "green") |}; line str ],
        inl KeyError))
  /\ __rich_console__ get_style render_lines
       (with_sides (of_ascii "wavy", of_ascii "rounded",
                    of_ascii "rounded", of_ascii "rounded") foo) 5
     = ([], inl KeyError).
Proof.
  split.
  - apply (@unknown_left_side_raises_after_top_row
             str (list str) get_style render_lines
             [of_ascii "foo"] (of_ascii "rounded") (of_ascii "rounded")
             (of_ascii "rounded") (of_ascii "wavy")
             (of_ascii "green") (of_ascii "green") (of_ascii "green")
             (of_ascii "on green")
             (of_ascii "green") (of_ascii "green") (of_ascii "green")
             (of_ascii "on green") 5
             [[ {| text := of_ascii "foo"; style := None |} ]]);
      reflexivity.
  - apply (@unknown_left_side_raises_after_top_row
             str (list str) get_style render_lines
             [of_ascii "foo"] (of_ascii "wavy") (of_ascii "rounded")
             (of_ascii "rounded") (of_ascii "rounded")
             (of_ascii "green") (of_ascii "green") (of_ascii "green")
             (of_ascii "on green")
             (of_ascii "green") (of_ascii "green") (of_ascii "green")
             (of_ascii "on green") 5
             [[ {| text := of_ascii "foo"; style := None |} ]]);
      reflexivity.
Defined.

Lemma foo_with_bogus_style :
  __rich_console__ get_style render_lines
    (with_styles (of_ascii "green", of_ascii "bogus", of_ascii "green",
                  of_ascii "green") foo) 5
  = ([], inl (OtherError "MissingStyle")).
Proof.
  apply (@unresolved_style_raises_first str (list str) get_style render_lines
           (with_styles (of_ascii "green", of_ascii "bogus",
                         of_ascii "green", of_ascii "green") foo)
           (of_ascii "green") (of_ascii "bogus") (of_ascii "green")
           (of_ascii "green") 5 (OtherError "MissingStyle"));
    [reflexivity|].
  right. left. split; [eexists|]; reflexivity.
Defined.

End BoxWitnesses.

(* ================================================================== *)
(** ** Closed instances of the further properties *)

Module ClientWitnesses.

Import Examples PlainText.

Local Open Scope string_scope.
Local Open Scope Z_scope.

Lemma capacity_kept_through_events :
  exists q,
    log_queue (happen_all [Logs hello; SenderTurn; Logs hello;
                           Receives [not_json]; SenderRuns; Logs hello]
                          fresh) = Some q
    /\ maxsize q = LOG_QUEUE_MAXSIZE /\ qsize q <= LOG_QUEUE_MAXSIZE.
Proof.
  apply (@queue_never_exceeds_capacity collaborators
           [Logs hello; SenderTurn; Logs hello; Receives [not_json];
            SenderRuns; Logs hello] fresh).
  exists (Queue.new Item LOG_QUEUE_MAXSIZE).
  split; [reflexivity|]. split; [reflexivity|]. vm_compute. discriminate.
Defined.

Lemma accepted_connect_connects :
  exists c',
    connect (Return {| ws_closed := false; ws_sent := [] |}) unconnected
    = (Return tt, c')
    /\ is_connected c' = true /\ spillover c' = spillover unconnected.
Proof.
  destruct (@connect_establishes_session collaborators unconnected
              {| ws_closed := false; ws_sent := [] |} eq_refl)
    as (c' & Hconnect & _ & Hon & _ & _ & Hcount & _).
  exists c'. repeat split; assumption.
Defined.

Lemma timed_out_connect_raises_timeout :
  exists c',
    connect (Raise (OtherError "TimeoutError")) unconnected
    = (Raise (OtherError "TimeoutError"), c')
    /\ session c' = Some {| session_closed := false |}
    /\ log_queue c' = Some (Queue.new Item LOG_QUEUE_MAXSIZE).
Proof.
  destruct (@connect_passes_other_failures collaborators unconnected
              (OtherError "TimeoutError") eq_refl)
    as [(c' & Hraise & Hsession & Hqueue & _) _].
  exists c'. repeat split; assumption.
Defined.

Lemma disconnect_of_new_client :
  disconnect unconnected = (Return tt, unconnected).
Proof.
  exact (@disconnect_before_connect collaborators unconnected
           eq_refl eq_refl eq_refl eq_refl eq_refl).
Defined.

Lemma disconnect_of_stranded_client :
  disconnect stranded = (Suspended, stranded).
Proof.
  apply (@disconnect_waits_forever collaborators stranded (queue_of stranded)).
  - vm_compute. reflexivity.
  - vm_compute. reflexivity.
  - vm_compute. discriminate.
Defined.

Lemma disconnect_after_malformed_frame :
  exists c',
    disconnect (run_update_console_task [not_json] (snd (log_call hello fresh)))
    = (Raise JSONDecodeError, c')
    /\ session c' = Some {| session_closed := false |}.
Proof.
  destruct (@disconnect_raises_listener_failure collaborators
              (run_update_console_task [not_json] (snd (log_call hello fresh)))
              (queue_of (snd (log_call hello fresh)))
              {| ws_closed := false; ws_sent := [] |}
              [call_record hello fresh] JSONDecodeError)
    as (c' & Hraise & Hsession & _); [vm_compute; reflexivity .. | ].
  exists c'. split; [exact Hraise|]. rewrite Hsession. reflexivity.
Defined.

Lemma disconnect_after_server_closed :
  exists c',
    disconnect (snd (log_call hello (run_update_console_task [close_frame] fresh)))
    = (Raise ConnectionResetError, c')
    /\ queue_items c' = [ClientShutdown]
    /\ session c' = Some {| session_closed := false |}.
Proof.
  destruct (@disconnect_raises_sender_failure collaborators
              (snd (log_call hello (run_update_console_task [close_frame] fresh)))
              (queue_of
                 (snd (log_call hello
                         (run_update_console_task [close_frame] fresh))))
              {| ws_closed := true; ws_sent := [] |}
              (call_record hello fresh) [])
    as (c' & Hraise & _ & Hqueue & _ & Hsession & _);
    [vm_compute; reflexivity | vm_compute; reflexivity
     | vm_compute; discriminate | vm_compute; reflexivity ..| ].
  exists c'. split; [exact Hraise|]. split; [exact Hqueue|].
  rewrite Hsession. reflexivity.
Defined.

Lemma log_after_disconnect_stays_queued :
  exists c1 c2 more,
    disconnect fresh = (Return tt, c1)
    /\ log_calls [hello] c1 = (Return tt, c2)
    /\ queue_items c2 = Message (call_record hello fresh) :: more
    /\ sent_frames (run_log_queue_task c2) = [].
Proof.
  destruct (@logs_after_disconnect_are_not_sent collaborators fresh
              (Queue.new Item LOG_QUEUE_MAXSIZE) [] hello [])
    as (c1 & c2 & more & Hstop & _ & Hlog & Hqueue & Hidle & Hsent & _).
  - unfold connected. repeat split; try reflexivity;
      eexists; split; reflexivity.
  - reflexivity.
  - reflexivity.
  - exists c1, c2, more. repeat split; try assumption.
    rewrite Hidle, Hsent. reflexivity.
Defined.

Lemma width_only_frame_sets_width :
  update_console [width_only 100; server_info 80 24] new_console
  = (Failed KeyError, set_width (JInt 100) new_console).
Proof.
  apply (@server_info_without_height collaborators
           (width_only 100) [server_info 80 24] new_console
           (JDict [("type", JStr "server_info");
                   ("payload", JDict [("width", JInt 100)])])
           (JStr "server_info") (JDict [("width", JInt 100)])
           (JInt 100) KeyError
           eq_refl eq_refl eq_refl eq_refl eq_refl eq_refl eq_refl eq_refl).
Defined.

Lemma disconnect_twice_after_a_log :
  exists c1 c2,
    disconnect (snd (log_call hello fresh)) = (Return tt, c1)
    /\ disconnect c1 = (Return tt, c2)
    /\ queue_items c2 = [ClientShutdown]
    /\ sent_frames c2 = sent_frames c1.
Proof.
  destruct (@second_disconnect_leaves_sentinel collaborators
              (snd (log_call hello fresh))
              (queue_of (snd (log_call hello fresh)))
              [call_record hello fresh])
    as (c1 & c2 & Hfirst & Hsecond & _ & Hleft & Hsent & _).
  - unfold connected. repeat split; try (vm_compute; reflexivity);
      eexists; split; vm_compute; reflexivity.
  - vm_compute. reflexivity.
  - vm_compute. reflexivity.
  - exists c1, c2. repeat split; assumption.
Defined.

Lemma one_overflow_is_reported :
  exists c1,
    log_calls (repeat hello 513) fresh = (Return tt, c1)
    /\ spillover c1 = 1
    /\ spillover
         (run_log_queue_task (snd (log_call hello (run_log_queue_task c1))))
       = 0
    /\ queue_items
         (run_log_queue_task (snd (log_call hello (run_log_queue_task c1))))
       = [].
Proof.
  destruct (@overflow_is_reported collaborators (repeat hello 513) 1 hello
              fresh (Queue.new Item LOG_QUEUE_MAXSIZE)
              {| ws_closed := false; ws_sent := [] |})
    as (c1 & Hrun & Hcount & _ & Hreset & Hdrained);
    [reflexivity | reflexivity | reflexivity | reflexivity | reflexivity
     | reflexivity | reflexivity | reflexivity | lia
     | vm_compute; reflexivity | ].
  exists c1. repeat split; assumption.
Defined.

End ClientWitnesses.
